(** * Hydrogen atom: closed-form evaluators, solver placeholders, package imports

    A shallow embedding of the Python package [src] (modules
    [wavefunctions.py], [schrodinger.py] and [__init__.py]).

    Conventions of the embedding.
    - A Python [int] is a [Z]; integer arithmetic ([n**2], [2*n], [l*(l+1)])
      is exact, as in Python.
    - A Python [float] is a real number: the embedding is of the arithmetic
      the code writes down, over [R].  Rounding to binary64, overflow and
      NaN are outside of it; an [int] that meets a [float] in an operation is
      injected with [IZR].
    - Where binary64 and the real numbers can differ by more than the last
      digits of a value (two values being distinct or strictly ordered, a
      value being zero, a call returning at all), the statements that depend
      on it are restricted to the arguments on which they agree: quantum numbers up to [2^20] for
      strict comparisons of energies and radii, integers of magnitude up to
      [2^500] where an [int] is turned into a [float], and [n + l <= 169]
      where the factorials of [hydrogen_radial] have to be finite floats
      ([norm_denominator_range] places that bound).
    - A call either returns a value or raises: [result A] is [Ok a] or
      [Raise e], and the statements of a function body are sequenced with
      the bind of that monad.  Only the class of an exception is kept, not
      its message.
    - The evaluators take a scalar coordinate; where the code hands numpy a
      grid ([normalization_check]), the array is a list and the arithmetic
      is applied to every element.
    - The routines the code imports from numpy and scipy are represented by
      the mathematical functions they evaluate ([exp], [sqrt], the factorial,
      the generalized Laguerre polynomial, [linspace], the trapezoid rule);
      [sph_harm], whose value no statement below depends on, is a section
      variable. *)

From Stdlib Require Import ZArith Reals Lra Lia List String Bool.
Import ListNotations.

Open Scope Z_scope.

(** ** Python results *)

Inductive exception : Type :=
| ValueError
| ZeroDivisionError
| IndexError
| ImportError (name : string)
| ModuleNotFoundError (name : string).

Inductive result (A : Type) : Type :=
| Ok (a : A)
| Raise (e : exception).

Arguments Ok {A} a.
Arguments Raise {A} e.

Definition bind {A B : Type} (c : result A) (k : A -> result B) : result B :=
  match c with
  | Ok a => k a
  | Raise e => Raise e
  end.

Notation "x <- c ;; k" := (bind c (fun x => k))
  (at level 61, c at next level, right associativity).

(** [returns c] : the call came back with a value; [raises c e] : it raised
    [e]. *)
Definition returns {A : Type} (c : result A) : Prop := exists a, c = Ok a.
Definition raises {A : Type} (c : result A) (e : exception) : Prop := c = Raise e.

(** ** Complex numbers

    [sph_harm] returns a complex number, and numpy promotes a real factor to
    the complex [x + 0j] before it multiplies. *)

Definition complex : Type := (R * R)%type.

Definition RtoC (x : R) : complex := (x, 0%R).

Definition Cmul (a b : complex) : complex :=
  (fst a * fst b - snd a * snd b, fst a * snd b + snd a * fst b)%R.

(** ** Routines of numpy and scipy *)

Module Scipy.

(** [scipy.special.factorial(k)] on an integer: [k!], and [0] below zero.
    The value is exact here; scipy's is a binary64 number, infinite from
    [171!] on. *)
Definition factorial (k : Z) : R :=
  if k <? 0 then 0%R else INR (fact (Z.to_nat k)).

(** The generalized Laguerre polynomials by their three-term recurrence,
    [(k+1) L_{k+1} = (2k+1+a-x) L_k - (k+a) L_{k-1}],
    from [L_0 = 1] and [L_1 = 1 + a - x].  [laguerre_pair k] is
    [(L_k, L_{k+1})]. *)
Fixpoint laguerre_pair (k : nat) (a x : R) : R * R :=
  match k with
  | O => (1, 1 + a - x)%R
  | S k' =>
      let '(p, q) := laguerre_pair k' a x in
      (q, ((2 * INR k' + 3 + a - x) * q - (INR k' + 1 + a) * p) / (INR k' + 2))%R
  end.

Definition laguerre (k : nat) (a x : R) : R := fst (laguerre_pair k a x).

(** [scipy.special.genlaguerre(n, alpha)]: the polynomial [L_n^alpha] as a
    callable; refuses [alpha <= -1] and [n < 0] with [ValueError]. *)
Definition genlaguerre (n alpha : Z) : result (R -> R) :=
  if alpha <=? -1 then Raise ValueError
  else if n <? 0 then Raise ValueError
  else Ok (laguerre (Z.to_nat n) (IZR alpha)).

(** [numpy.linspace(start, stop, num)]: [num] evenly spaced samples, both
    ends included; a negative [num] is a [ValueError]. *)
Definition linspace (start stop : R) (num : Z) : result (list R) :=
  if num <? 0 then Raise ValueError
  else
    let step := ((stop - start) / (IZR num - 1))%R in
    Ok (map (fun i => (start + INR i * step)%R) (seq 0 (Z.to_nat num))).

(** [scipy.integrate.trapezoid(y, x)]: the composite trapezoid rule,
    [sum_i (x[i+1] - x[i]) * (y[i+1] + y[i]) / 2]; samples of different
    lengths do not broadcast, a [ValueError]. *)
Fixpoint trapezoid_sum (y x : list R) : R :=
  match y, x with
  | y0 :: ((y1 :: _) as y'), x0 :: ((x1 :: _) as x') =>
      ((x1 - x0) * (y1 + y0) / 2 + trapezoid_sum y' x')%R
  | _, _ => 0%R
  end.

Definition trapezoid (y x : list R) : result R :=
  if (List.length y =? List.length x)%nat then Ok (trapezoid_sum y x)
  else Raise ValueError.

(** [numpy.ones(n)]: [n] ones; a negative length is a [ValueError]. *)
Definition np_ones (n : Z) : result (list R) :=
  if n <? 0 then Raise ValueError else Ok (repeat 1%R (Z.to_nat n)).

(** [numpy.diag(v, k)] at a one-dimensional [v]: the square matrix of order
    [len(v) + |k|] with [v] on its [k]-th diagonal (above the main one for
    [k > 0], below it for [k < 0]) and zero elsewhere.  A matrix is the list
    of its rows. *)
Definition np_diag (v : list R) (k : Z) : list (list R) :=
  let order := (List.length v + Z.abs_nat k)%nat in
  map (fun i =>
         map (fun j =>
                if Z.of_nat j - Z.of_nat i =? k
                then nth (if 0 <=? k then i else j) v 0%R
                else 0%R)
             (seq 0 order))
      (seq 0 order).

(** [A + B] at two matrices of one shape: entry by entry. *)
Definition matrix_add (A B : list (list R)) : list (list R) :=
  map (fun rows =>
         map (fun ab => (fst ab + snd ab)%R) (combine (fst rows) (snd rows)))
      (combine A B).

(** The entry [H[i][j]] of a matrix. *)
Definition entry (H : list (list R)) (i j : nat) : R :=
  nth j (nth i H []) 0%R.

End Scipy.

(** ** wavefunctions.py *)

Module Wavefunctions.

Import Scipy.

Definition BOHR_RADIUS : R := 1.0%R.
Definition RYDBERG_ENERGY : R := 0.5%R.

(** [hydrogen_radial(r, n, l, normalized=True)] at a scalar [r]:
<<
    r = np.asarray(r, dtype=float)
    if n < 1 or l < 0 or l >= n:
        raise ValueError(f"Invalid quantum numbers: n={n}, l={l}")
    norm = np.sqrt((2.0 / n)**3 * factorial(n - l - 1) / (2*n*factorial(n + l)))
    rho = 2 * r / n
    L = genlaguerre(n - l - 1, 2*l + 1)
    R = norm * np.exp(-rho/2) * (rho)**l * L(rho)
    return R
>> *)
Definition hydrogen_radial (r : R) (n l : Z) (normalized : bool) : result R :=
  if (n <? 1) || (l <? 0) || (l >=? n) then Raise ValueError
  else
    let norm :=
      sqrt ((2.0 / IZR n) ^ 3 * factorial (n - l - 1)
            / (IZR (2 * n) * factorial (n + l))) in
    let rho := (2 * r / IZR n)%R in
    L <- genlaguerre (n - l - 1) (2 * l + 1) ;;
    let R := (norm * exp (- rho / 2) * rho ^ Z.to_nat l * L rho)%R in
    Ok R.

(** The same body at a one-dimensional array [r]: numpy applies the
    arithmetic of [rho] and [R] to every element. *)
Definition hydrogen_radial_array (r : list R) (n l : Z) (normalized : bool)
  : result (list R) :=
  if (n <? 1) || (l <? 0) || (l >=? n) then Raise ValueError
  else
    let norm :=
      sqrt ((2.0 / IZR n) ^ 3 * factorial (n - l - 1)
            / (IZR (2 * n) * factorial (n + l))) in
    let rho := map (fun r_i => (2 * r_i / IZR n)%R) r in
    L <- genlaguerre (n - l - 1) (2 * l + 1) ;;
    let R :=
      map (fun rho_i =>
             (norm * exp (- rho_i / 2) * rho_i ^ Z.to_nat l * L rho_i)%R) rho in
    Ok R.

Section Angular.

(** [scipy.special.sph_harm(m, l, phi, theta)]. *)
Variable sph_harm : Z -> Z -> R -> R -> complex.

(** [spherical_harmonic(theta, phi, l, m)]:
<<
    if abs(m) > l:
        raise ValueError(f"Invalid quantum numbers: l={l}, m={m}")
    Y = sph_harm(m, l, phi, theta)
    return Y
>> *)
Definition spherical_harmonic (theta phi : R) (l m : Z) : result complex :=
  if Z.abs m >? l then Raise ValueError
  else
    let Y := sph_harm m l phi theta in
    Ok Y.

(** [hydrogen_wavefunction(r, theta, phi, n, l, m, normalize=True)]:
<<
    R = hydrogen_radial(r, n, l, normalized=normalize)
    Y = spherical_harmonic(theta, phi, l, m)
    psi = R * Y
    return psi
>> *)
Definition hydrogen_wavefunction (r theta phi : R) (n l m : Z)
    (normalize : bool) : result complex :=
  R <- hydrogen_radial r n l normalize ;;
  Y <- spherical_harmonic theta phi l m ;;
  let psi := Cmul (RtoC R) Y in
  Ok psi.

End Angular.

(** [probability_density_radial(r, n, l)]:
<<
    R = hydrogen_radial(r, n, l, normalized=True)
    P = r**2 * np.abs(R)**2
    return P
>> *)
Definition probability_density_radial (r : R) (n l : Z) : result R :=
  R <- hydrogen_radial r n l true ;;
  let P := (r ^ 2 * Rabs R ^ 2)%R in
  Ok P.

(** [expectation_value_r(n, l)]:
<<
    return BOHR_RADIUS * n**2 * (1.5 - l*(l+1)/(2*n**2))
>>
    [/] between two [int]s is the true division, which raises
    [ZeroDivisionError] on a zero divisor. *)
Definition expectation_value_r (n l : Z) : result R :=
  if 2 * n ^ 2 =? 0 then Raise ZeroDivisionError
  else
    Ok (BOHR_RADIUS * IZR (n ^ 2)
        * (1.5 - IZR (l * (l + 1)) / IZR (2 * n ^ 2)))%R.

(** [expectation_value_r_squared(n, l)]:
<<
    return (BOHR_RADIUS * n)**2 * (n**2 * (5/2 + 1) - 3*l*(l+1)/2)
>> *)
Definition expectation_value_r_squared (n l : Z) : result R :=
  Ok ((BOHR_RADIUS * IZR n) ^ 2
      * (IZR (n ^ 2) * (5 / 2 + 1) - IZR (3 * l * (l + 1)) / 2))%R.

(** [uncertainty_r(n, l)]. *)
Definition uncertainty_r (n l : Z) : result R :=
  r_sq <- expectation_value_r_squared n l ;;
  r <- expectation_value_r n l ;;
  let delta_r := sqrt (r_sq - r ^ 2) in
  Ok delta_r.

(** [energy_eigenvalue(n)]:
<<
    if n < 1:
        raise ValueError("Principal quantum number n must be >= 1")
    return -1.0 / (2 * n**2)
>> *)
Definition energy_eigenvalue (n : Z) : result R :=
  if n <? 1 then Raise ValueError
  else Ok ((- 1.0) / IZR (2 * n ^ 2))%R.

(** [normalization_check(n, l, r_max=50, num_points=1000)], the defaults
    being arguments here:
<<
    r = np.linspace(0, r_max, num_points)
    R = hydrogen_radial(r, n, l, normalized=True)
    P = r**2 * np.abs(R)**2
    integral = trapezoid(P, r)
    return integral
>> *)
Definition normalization_check (n l : Z) (r_max : R) (num_points : Z)
  : result R :=
  r <- linspace 0 r_max num_points ;;
  R <- hydrogen_radial_array r n l true ;;
  let P := map (fun rR => (fst rR ^ 2 * Rabs (snd rR) ^ 2)%R) (combine r R) in
  trapezoid P r.

End Wavefunctions.

(** ** schrodinger.py *)

Module Schrodinger.

Import Scipy Wavefunctions.

(** What a call hands back to its caller: Python's [None], a float, an
    array, or a 2-tuple of such. *)
Inductive value : Type :=
| PyNone
| PyFloat (x : R)
| PyArray (xs : list R)
| PyTuple (first second : value).

(** [solve_radial_schrodinger(r, n, l, V_func=None)]:
<<
    if V_func is None:
        V_func = lambda r: -1.0 / np.where(r > 0, r, 1e-10)
    E = energy_eigenvalue(n)
    return None, E
>> *)
Definition solve_radial_schrodinger
    (r : list R) (n l : Z) (V_func : option (R -> R)) : result value :=
  let V_func :=
    match V_func with
    | None => fun r : R => (- 1.0 / (if Rlt_dec 0 r then r else 1e-10))%R
    | Some V => V
    end in
  E <- energy_eigenvalue n ;;
  Ok (PyTuple PyNone (PyFloat E)).

(** An element of an array by position; [IndexError] past the end. *)
Definition getitem (xs : list R) (i : nat) : result R :=
  match nth_error xs i with
  | Some x => Ok x
  | None => Raise IndexError
  end.

(** The instance attributes of [RadialSolver]. *)
Record RadialSolver : Type := {
  l : Z;
  r_max : R;
  r : list R;
  dr : R
}.

(** [RadialSolver.__init__(self, l_value, r_max=100, num_points=1000)]:
<<
    self.l = l_value
    self.r_max = r_max
    self.r = np.linspace(1e-10, r_max, num_points)
    self.dr = self.r[1] - self.r[0]
>> *)
Definition RadialSolver_init (l_value : Z) (r_max : R) (num_points : Z)
  : result RadialSolver :=
  grid <- linspace 1e-10 r_max num_points ;;
  r1 <- getitem grid 1 ;;
  r0 <- getitem grid 0 ;;
  Ok {| l := l_value; r_max := r_max; r := grid; dr := (r1 - r0)%R |}.

(** [RadialSolver.coulomb_potential(self)]: [-1.0 / self.r]. *)
Definition coulomb_potential (self : RadialSolver) : list R :=
  map (fun x => (- 1.0 / x)%R) (r self).

(** [RadialSolver.effective_potential(self)]:
    [self.coulomb_potential() + self.l * (self.l + 1) / (2 * self.r**2)]. *)
Definition effective_potential (self : RadialSolver) : list R :=
  map (fun vx => (fst vx + IZR (l self * (l self + 1)) / (2 * snd vx ^ 2))%R)
      (combine (coulomb_potential self) (r self)).

(** [RadialSolver.finite_difference_matrix(self, E)]:
<<
    V = self.effective_potential()
    N = len(self.r)
    diag = 2.0 / self.dr**2 + V
    off_diag = -1.0 / self.dr**2
    H = np.diag(diag) + np.diag(off_diag * np.ones(N-1), 1)
        + np.diag(off_diag * np.ones(N-1), -1)
    return H
>> *)
Definition finite_difference_matrix (self : RadialSolver) (E : R)
  : result (list (list R)) :=
  let V := effective_potential self in
  let N := Z.of_nat (List.length (r self)) in
  let diag := map (fun v => (2.0 / dr self ^ 2 + v)%R) V in
  let off_diag := (- 1.0 / dr self ^ 2)%R in
  upper <- np_ones (N - 1) ;;
  lower <- np_ones (N - 1) ;;
  let H :=
    matrix_add
      (matrix_add (np_diag diag 0)
                  (np_diag (map (fun one => (off_diag * one)%R) upper) 1))
      (np_diag (map (fun one => (off_diag * one)%R) lower) (-1)) in
  Ok H.

(** [RadialSolver.shooting_method(self, n)]:
<<
    E = energy_eigenvalue(n)
    pass
>>
    The body ends without a [return]: the call evaluates to [None]. *)
Definition shooting_method (self : RadialSolver) (n : Z) : result value :=
  E <- energy_eigenvalue n ;;
  Ok PyNone.

End Schrodinger.

(** ** __init__.py and the import of the package

    A module is the list of its top-level statements, as far as they bind
    names: imports, and the definitions, classes and assignments of the
    file.  Importing a module runs them in order. *)

Module Package.

Inductive statement : Type :=
| ImportModule (module : string) (alias : string)
| FromImport (module : string) (names : list string)
| FromRelativeImport (module : string) (names : list string)
| Binds (name : string).

Definition namespace : Type := list string.

Definition wavefunctions_py : list statement :=
  [ ImportModule "numpy" "np";
    FromImport "scipy.special" ["genlaguerre"; "sph_harm"; "factorial"];
    FromImport "scipy.integrate" ["quad"];
    ImportModule "warnings" "warnings";
    Binds "BOHR_RADIUS"; Binds "RYDBERG_ENERGY"; Binds "FINE_STRUCTURE";
    Binds "hydrogen_radial"; Binds "spherical_harmonic";
    Binds "hydrogen_wavefunction"; Binds "probability_density_radial";
    Binds "expectation_value_r"; Binds "expectation_value_r_squared";
    Binds "uncertainty_r"; Binds "energy_eigenvalue";
    Binds "normalization_check" ]%string.

Definition schrodinger_py : list statement :=
  [ ImportModule "numpy" "np";
    FromImport "scipy.integrate" ["odeint"; "solve_bvp"];
    FromImport "scipy.linalg" ["eigh"];
    FromRelativeImport "wavefunctions" ["energy_eigenvalue"];
    Binds "solve_radial_schrodinger"; Binds "RadialSolver" ]%string.

Definition init_py : list statement :=
  [ Binds "__version__"; Binds "__author__"; Binds "__email__";
    Binds "__license__";
    FromRelativeImport "wavefunctions"
      ["hydrogen_wavefunction"; "hydrogen_radial"; "spherical_harmonic";
       "probability_density_radial"];
    FromRelativeImport "schrodinger"
      ["energy_eigenvalue"; "solve_radial_schrodinger"];
    FromRelativeImport "numerics"
      ["finite_difference_solver"; "shooting_method"];
    FromRelativeImport "visualization"
      ["plot_probability_density"; "plot_radial_distribution";
       "plot_energy_levels"];
    FromRelativeImport "spectroscopy"
      ["transition_frequency"; "oscillator_strength"; "selection_rules"];
    Binds "__all__" ]%string.

(** The modules of the package directory [src/], [__init__.py] apart. *)
Definition package_files : list (string * list statement) :=
  [ ("wavefunctions", wavefunctions_py);
    ("schrodinger", schrodinger_py) ]%string.

Fixpoint find_module (name : string) (files : list (string * list statement))
  : option (list statement) :=
  match files with
  | [] => None
  | (f, body) :: rest =>
      if String.eqb f name then Some body else find_module name rest
  end.

(** The first of [names] that [exported] does not hold. *)
Fixpoint first_missing (names : list string) (exported : namespace)
  : option string :=
  match names with
  | [] => None
  | x :: rest =>
      if existsb (String.eqb x) exported then first_missing rest exported
      else Some x
  end.

(** [ModuleNotFoundError] is a subclass of [ImportError]. *)
Definition is_ImportError (e : exception) : bool :=
  match e with
  | ImportError _ | ModuleNotFoundError _ => true
  | _ => false
  end.

(** The names a module leaves bound when its body runs to the end. *)
Definition wavefunctions_ns : namespace :=
  [ "normalization_check"; "energy_eigenvalue"; "uncertainty_r";
    "expectation_value_r_squared"; "expectation_value_r";
    "probability_density_radial"; "hydrogen_wavefunction";
    "spherical_harmonic"; "hydrogen_radial"; "FINE_STRUCTURE";
    "RYDBERG_ENERGY"; "BOHR_RADIUS"; "warnings"; "quad"; "genlaguerre";
    "sph_harm"; "factorial"; "np" ]%string.

Definition schrodinger_ns : namespace :=
  [ "RadialSolver"; "solve_radial_schrodinger"; "energy_eigenvalue"; "eigh";
    "odeint"; "solve_bvp"; "np" ]%string.

(** A module body either runs to the end or stops on an [ImportError]. *)
Definition ends_or_import_error
    (c : option (result namespace)) (ns : namespace) : Prop :=
  c = Some (Ok ns) \/
  exists e, is_ImportError e = true /\ c = Some (Raise e).

(** An environment with every third-party module the package asks for, each
    with the names imported from it. *)
Definition site_packages (m : string) : option namespace :=
  if String.eqb m "numpy" then Some []
  else if String.eqb m "warnings" then Some []
  else if String.eqb m "scipy.special"
  then Some ["genlaguerre"; "sph_harm"; "factorial"]%string
  else if String.eqb m "scipy.integrate"
  then Some ["quad"; "odeint"; "solve_bvp"; "trapezoid"]%string
  else if String.eqb m "scipy.linalg" then Some ["eigh"]%string
  else None.

Section Interpreter.

(** The modules installed besides the package (numpy, scipy, the standard
    library), each with the names it exports; [None] when absent. *)
Variable installed : string -> option namespace.

(** Running a module body, statement by statement.  [load] imports a
    file of the package.  [from .m import names] inside the package [src]
    resolves [m] to [src.m]: a file of the package, loaded in turn, or
    [ModuleNotFoundError]. *)
Fixpoint run_body (load : list statement -> option (result namespace))
    (body : list statement) (ns : namespace) : option (result namespace) :=
  match body with
  | [] => Some (Ok ns)
  | Binds x :: rest => run_body load rest (x :: ns)
  | ImportModule m alias :: rest =>
      match installed m with
      | None => Some (Raise (ModuleNotFoundError m))
      | Some _ => run_body load rest (alias :: ns)
      end
  | FromImport m names :: rest =>
      match installed m with
      | None => Some (Raise (ModuleNotFoundError m))
      | Some exported =>
          match first_missing names exported with
          | Some x => Some (Raise (ImportError x))
          | None => run_body load rest (names ++ ns)
          end
      end
  | FromRelativeImport m names :: rest =>
      match find_module m package_files with
      | None => Some (Raise (ModuleNotFoundError (String.append "src." m)))
      | Some body' =>
          match load body' with
          | None => None
          | Some (Raise e) => Some (Raise e)
          | Some (Ok exported) =>
              match first_missing names exported with
              | Some x => Some (Raise (ImportError x))
              | None => run_body load rest (names ++ ns)
              end
          end
      end
  end.

(** Importing a module runs its body in a fresh namespace.  [fuel] bounds
    the depth of nested imports; [None] is "out of fuel". *)
Fixpoint run_module (fuel : nat) (body : list statement)
  : option (result namespace) :=
  match fuel with
  | O => None
  | S fuel' => run_body (run_module fuel') body []
  end.

(** [import src]: runs [src/__init__.py]. *)
Definition import_package (fuel : nat) : option (result namespace) :=
  run_module fuel init_py.

(** [from src.m import names]: the package [src] is imported first, then
    its module [m]. *)
Definition from_package_import (fuel : nat) (m : string) (names : list string)
  : option (result namespace) :=
  match import_package fuel with
  | None => None
  | Some (Raise e) => Some (Raise e)
  | Some (Ok _) =>
      match find_module m package_files with
      | None => Some (Raise (ModuleNotFoundError (String.append "src." m)))
      | Some body =>
          match run_module fuel body with
          | None => None
          | Some (Raise e) => Some (Raise e)
          | Some (Ok exported) =>
              match first_missing names exported with
              | Some x => Some (Raise (ImportError x))
              | None => Some (Ok names)
              end
          end
      end
  end.

(** The third-party imports of the two modules all resolve: what
    [install_requires] of [setup.py] is there to provide. *)
Definition external_import_ok (s : statement) : bool :=
  match s with
  | ImportModule m _ =>
      match installed m with Some _ => true | None => false end
  | FromImport m names =>
      match installed m with
      | Some exported =>
          match first_missing names exported with
          | None => true
          | Some _ => false
          end
      | None => false
      end
  | FromRelativeImport _ _ | Binds _ => true
  end.

Definition dependencies_installed : bool :=
  forallb external_import_ok wavefunctions_py
  && forallb external_import_ok schrodinger_py.

End Interpreter.

End Package.

(** ** examples/energy_levels.py *)

Module EnergyLevels.

Import Wavefunctions.

(** A value of numpy's [int64]: integer arithmetic on the elements of an
    array wraps around at 64 bits. *)
Definition int64 (z : Z) : Z := (z + 2 ^ 63) mod 2 ^ 64 - 2 ^ 63.

(** [numpy.arange(start, stop)]: the integers from [start] up to, not
    including, [stop]. *)
Definition arange (start stop : Z) : list Z :=
  map (fun i => start + Z.of_nat i) (seq 0 (Z.to_nat (stop - start))).

(** [energy_eigenvalue(n)] at an element [n] of an [int64] array, as
    [calculate_energy_levels] calls it: [2 * n**2] is computed in [int64]. *)
Definition energy_eigenvalue_int64 (n : Z) : result R :=
  if n <? 1 then Raise ValueError
  else Ok ((- 1.0) / IZR (int64 (2 * int64 (n ^ 2))))%R.

(** A list comprehension whose element expression may raise. *)
Fixpoint comprehension {A B : Type} (f : A -> result B) (xs : list A)
  : result (list B) :=
  match xs with
  | [] => Ok []
  | x :: rest =>
      y <- f x ;;
      ys <- comprehension f rest ;;
      Ok (y :: ys)
  end.

(** [calculate_energy_levels(n_max=5)]:
<<
    n_values = np.arange(1, n_max + 1)
    energies_au = np.array([energy_eigenvalue(n) for n in n_values])
    energies_ev = energies_au * 27.211
    return n_values, energies_ev
>> *)
Definition calculate_energy_levels (n_max : Z) : result (list Z * list R) :=
  let n_values := arange 1 (n_max + 1) in
  energies_au <- comprehension energy_eigenvalue_int64 n_values ;;
  let energies_ev := map (fun E => (E * 27.211)%R) energies_au in
  Ok (n_values, energies_ev).

(** [calculate_transition_energy(n_upper, n_lower)]:
<<
    if n_upper <= n_lower:
        raise ValueError("n_upper must be greater than n_lower")
    E_upper = energy_eigenvalue(n_upper) * 27.211
    E_lower = energy_eigenvalue(n_lower) * 27.211
    E_trans = E_upper - E_lower
    hc = 1240  # eV.nm
    wavelength = hc / E_trans
    return E_trans, wavelength
>>
    [hc / E_trans] raises [ZeroDivisionError] on a zero [E_trans]. *)
Definition calculate_transition_energy (n_upper n_lower : Z)
  : result (R * R) :=
  if n_upper <=? n_lower then Raise ValueError
  else
    E_n_upper <- energy_eigenvalue n_upper ;;
    let E_upper := (E_n_upper * 27.211)%R in
    E_n_lower <- energy_eigenvalue n_lower ;;
    let E_lower := (E_n_lower * 27.211)%R in
    let E_trans := (E_upper - E_lower)%R in
    let hc := 1240%R in
    if Req_dec_T E_trans 0 then Raise ZeroDivisionError
    else
      let wavelength := (hc / E_trans)%R in
      Ok (E_trans, wavelength).

End EnergyLevels.

(** ** The closed form of the radial wavefunction, from the specification

    [rho = 2r/n], [norm = sqrt((2/n)^3 (n-l-1)! / (2n (n+l)!))] and
    [R_{n,l}(r) = norm * exp(-rho/2) * rho^l * L_{n-l-1}^{2l+1}(rho)],
    with natural numbers for the quantum numbers. *)

Definition closed_form_radial (n l : nat) (r : R) : R :=
  let rho := (2 * r / INR n)%R in
  let norm :=
    sqrt ((2 / INR n) ^ 3 * INR (fact (n - l - 1))
          / (2 * INR n * INR (fact (n + l)))) in
  (norm * exp (- rho / 2) * rho ^ l
   * Scipy.laguerre (n - l - 1) (INR (2 * l + 1)) rho)%R.

(** ** Predicates on grids and matrices *)


(** A matrix of [N] rows of [N] entries. *)
Definition square (N : nat) (H : list (list R)) : Prop :=
  List.length H = N /\
  forall i, (i < N)%nat -> List.length (nth i H []) = N.

(** ** The denominator of the normalisation constant

    [2*n*factorial(n + l)], the denominator under the root of [norm] in
    [hydrogen_radial]; and the factorial with integer values, to compare it
    by computation with [2^1024], above every binary64 number. *)



Import Scipy Wavefunctions.

(** * Energy eigenvalue *)

Lemma energy_eigenvalue_valid (n : Z) :
  1 <= n -> energy_eigenvalue n = Ok (- (1 / (2 * IZR n ^ 2)))%R.
Proof.
  intros Hn. unfold energy_eigenvalue.
  destruct (Z.ltb_spec n 1) as [Hlt | _]; [lia |].
  f_equal. rewrite mult_IZR. change 2 with (Z.of_nat 2) at 2.
  rewrite <- pow_IZR. unfold Rdiv. lra.
Qed.

Lemma energy_eigenvalue_invalid (n : Z) :
  n < 1 -> energy_eigenvalue n = Raise ValueError.
Proof.
  intros Hn. unfold energy_eigenvalue.
  destruct (Z.ltb_spec n 1) as [_ | Hge]; [reflexivity | lia].
Qed.

(** C1. For every integer [n >= 1], [energy_eigenvalue n] returns exactly
    [-1/(2 n^2)], in particular [-0.5] at [n = 1]; for every integer
    [n < 1] it raises [ValueError] and returns no value. *)
Theorem energy_eigenvalue_contract :
  (forall n : Z, 1 <= n ->
     energy_eigenvalue n = Ok (- (1 / (2 * IZR n ^ 2)))%R) /\
  energy_eigenvalue 1 = Ok (- 0.5)%R /\
  (forall n : Z, n < 1 ->
     raises (energy_eigenvalue n) ValueError /\ ~ returns (energy_eigenvalue n)).
Proof.
  split; [exact energy_eigenvalue_valid | split].
  - rewrite energy_eigenvalue_valid by lia. f_equal. lra.
  - intros n Hn. unfold raises, returns.
    rewrite (energy_eigenvalue_invalid n Hn).
    split; [reflexivity |]. intros [a Ha]. discriminate Ha.
Qed.

Lemma energy_eigenvalue_contract_witness :
  energy_eigenvalue 1 = Ok (- (1 / (2 * IZR 1 ^ 2)))%R /\
  raises (energy_eigenvalue 0) ValueError.
Proof.
  split.
  - apply (proj1 energy_eigenvalue_contract 1). lia.
  - apply (proj2 (proj2 energy_eigenvalue_contract) 0). lia.
Defined.

(** * Radial wavefunction *)

(** The guard of [hydrogen_radial] decides the three conditions it names. *)
Lemma guard_true_iff (n l : Z) :
  (n <? 1) || (l <? 0) || (l >=? n) = true <-> n < 1 \/ l < 0 \/ l >= n.
Proof. rewrite !orb_true_iff, !Z.ltb_lt, Z.geb_le. lia. Qed.

Lemma guard_false_iff (n l : Z) :
  (n <? 1) || (l <? 0) || (l >=? n) = false <-> 1 <= n /\ 0 <= l < n.
Proof. rewrite <- not_true_iff_false, guard_true_iff. lia. Qed.

(** On valid quantum numbers [genlaguerre] is called inside its domain. *)
Lemma genlaguerre_valid (n l : Z) :
  1 <= n -> 0 <= l < n ->
  genlaguerre (n - l - 1) (2 * l + 1)
  = Ok (laguerre (Z.to_nat (n - l - 1)) (IZR (2 * l + 1))).
Proof.
  intros Hn Hl. unfold genlaguerre.
  destruct (Z.leb_spec (2 * l + 1) (-1)) as [H | _]; [lia |].
  destruct (Z.ltb_spec (n - l - 1) 0) as [H | _]; [lia |].
  reflexivity.
Qed.

(** The generalized Laguerre polynomials of degree 0, 1 and 2. *)
Lemma laguerre_0 (a x : R) : laguerre 0 a x = 1%R.
Proof. reflexivity. Qed.

Lemma laguerre_1 (a x : R) : laguerre 1 a x = (1 + a - x)%R.
Proof. reflexivity. Qed.

Lemma laguerre_2 (a x : R) :
  laguerre 2 a x = ((a + 1) * (a + 2) / 2 - (a + 2) * x + x ^ 2 / 2)%R.
Proof. unfold laguerre. simpl. lra. Qed.

Lemma IZR_to_nat (z : Z) : 0 <= z -> IZR z = INR (Z.to_nat z).
Proof. intros H. rewrite INR_IZR_INZ, Z2Nat.id; [reflexivity | assumption]. Qed.

Lemma factorial_nonneg (k : Z) :
  0 <= k -> factorial k = INR (fact (Z.to_nat k)).
Proof.
  intros H. unfold factorial.
  destruct (Z.ltb_spec k 0) as [C | _]; [lia | reflexivity].
Qed.

(** What the body of [hydrogen_radial] computes past its guard is the closed
    form. *)
Lemma radial_body_closed_form (r : R) (n l : Z) :
  1 <= n -> 0 <= l < n ->
  (sqrt ((2.0 / IZR n) ^ 3 * factorial (n - l - 1)
         / (IZR (2 * n) * factorial (n + l)))
   * exp (- (2 * r / IZR n) / 2) * (2 * r / IZR n) ^ Z.to_nat l
   * laguerre (Z.to_nat (n - l - 1)) (IZR (2 * l + 1)) (2 * r / IZR n))%R
  = closed_form_radial (Z.to_nat n) (Z.to_nat l) r.
Proof.
  intros Hn Hl. unfold closed_form_radial.
  rewrite !factorial_nonneg by lia.
  rewrite (IZR_to_nat (2 * l + 1)) by lia.
  rewrite mult_IZR, (IZR_to_nat n) by lia.
  replace (Z.to_nat (n - l - 1)) with (Z.to_nat n - Z.to_nat l - 1)%nat by lia.
  replace (Z.to_nat (n + l)) with (Z.to_nat n + Z.to_nat l)%nat by lia.
  replace (Z.to_nat (2 * l + 1)) with (2 * Z.to_nat l + 1)%nat by lia.
  replace 2.0%R with 2%R by lra.
  reflexivity.
Qed.

Lemma hydrogen_radial_valid (r : R) (n l : Z) (normalized : bool) :
  1 <= n -> 0 <= l < n ->
  hydrogen_radial r n l normalized
  = Ok (closed_form_radial (Z.to_nat n) (Z.to_nat l) r).
Proof.
  intros Hn Hl. unfold hydrogen_radial.
  rewrite (proj2 (guard_false_iff n l)) by lia.
  rewrite genlaguerre_valid by lia. cbn [bind].
  f_equal. apply radial_body_closed_form; assumption.
Qed.

Lemma hydrogen_radial_invalid (r : R) (n l : Z) (normalized : bool) :
  n < 1 \/ l < 0 \/ l >= n ->
  hydrogen_radial r n l normalized = Raise ValueError.
Proof.
  intros H. unfold hydrogen_radial.
  rewrite (proj2 (guard_true_iff n l) H). reflexivity.
Qed.

(** * The ground state *)

(** The closed form at the first orbitals: [R_10 = 2 exp(-r)],
    [R_20 = (2 - r) exp(-r/2) / sqrt 8], [R_21 = r exp(-r/2) / sqrt 24]. *)
Lemma closed_form_radial_1s (r : R) :
  closed_form_radial 1 0 r = (2 * exp (- r))%R.
Proof.
  unfold closed_form_radial. cbn [Nat.sub Nat.add Nat.mul fact INR laguerre
    laguerre_pair fst pow].
  replace ((2 / 1) * ((2 / 1) * ((2 / 1) * 1)) * 1 / (2 * 1 * 1))%R
    with (2 * 2)%R by lra.
  rewrite sqrt_square by lra.
  replace (- (2 * r / 1) / 2)%R with (- r)%R by lra.
  lra.
Qed.

Lemma closed_form_radial_2s (r : R) :
  closed_form_radial 2 0 r = (sqrt (1 / 8) * exp (- r / 2) * (2 - r))%R.
Proof.
  unfold closed_form_radial, laguerre.
  cbn [Nat.sub Nat.add Nat.mul fact INR laguerre_pair fst pow].
  replace (2 * r / (1 + 1))%R with r by lra.
  match goal with
  | |- context [sqrt ?x] => replace x with (1 / 8)%R by lra
  end.
  lra.
Qed.

Lemma closed_form_radial_2p (r : R) :
  closed_form_radial 2 1 r = (sqrt (1 / 24) * exp (- r / 2) * r)%R.
Proof.
  unfold closed_form_radial, laguerre.
  cbn [Nat.sub Nat.add Nat.mul fact INR laguerre_pair fst pow].
  replace (2 * r / (1 + 1))%R with r by lra.
  match goal with
  | |- context [sqrt ?x] => replace x with (1 / 24)%R by lra
  end.
  lra.
Qed.

Lemma hydrogen_radial_1s (r : R) (normalized : bool) :
  hydrogen_radial r 1 0 normalized = Ok (2 * exp (- r))%R.
Proof.
  rewrite hydrogen_radial_valid by lia.
  f_equal. apply closed_form_radial_1s.
Qed.

(** C9. For all [0 < r1 < r2], the ground-state radial wavefunction at [r2]
    is at most its value at [r1]: [hydrogen_radial(r, n=1, l=0)] is
    monotonically non-increasing in [r] for [r > 0]. *)
Theorem hydrogen_radial_1s_nonincreasing (r1 r2 : R) (normalized : bool) :
  (0 < r1)%R -> (r1 < r2)%R ->
  exists R1 R2 : R,
    hydrogen_radial r1 1 0 normalized = Ok R1 /\
    hydrogen_radial r2 1 0 normalized = Ok R2 /\
    (R2 <= R1)%R.
Proof.
  intros _ Hlt.
  exists (2 * exp (- r1))%R, (2 * exp (- r2))%R.
  rewrite !hydrogen_radial_1s. repeat split.
  assert (exp (- r2) < exp (- r1))%R by (apply exp_increasing; lra).
  lra.
Qed.

Lemma hydrogen_radial_1s_nonincreasing_witness :
  exists R1 R2 : R,
    hydrogen_radial 1 1 0 true = Ok R1 /\
    hydrogen_radial 2 1 0 true = Ok R2 /\
    (R2 <= R1)%R.
Proof.
  apply (hydrogen_radial_1s_nonincreasing 1 2 true); lra.
Defined.

(** * Expectation values *)

(** C6. [expectation_value_r(n=1, l=0)] returns exactly [1.5], and
    [expectation_value_r(2, 0)] is strictly greater than
    [expectation_value_r(2, 1)]. *)
Theorem expectation_value_r_values :
  expectation_value_r 1 0 = Ok 1.5%R /\
  exists r_2s r_2p : R,
    expectation_value_r 2 0 = Ok r_2s /\
    expectation_value_r 2 1 = Ok r_2p /\
    (r_2s > r_2p)%R.
Proof.
  split.
  - unfold expectation_value_r, BOHR_RADIUS. simpl. f_equal. lra.
  - exists 6%R, 5%R. repeat split.
    + unfold expectation_value_r, BOHR_RADIUS. simpl. f_equal. lra.
    + unfold expectation_value_r, BOHR_RADIUS. simpl. f_equal. lra.
    + lra.
Qed.

(** * Angular factor, composition, and the normalisation flags *)

Section AngularTheorems.

Variable sph_harm : Z -> Z -> R -> R -> complex.

Lemma spherical_harmonic_valid (theta phi : R) (l m : Z) :
  Z.abs m <= l ->
  spherical_harmonic sph_harm theta phi l m = Ok (sph_harm m l phi theta).
Proof.
  intros H. unfold spherical_harmonic.
  destruct (Z.gtb_spec (Z.abs m) l) as [C | _]; [lia | reflexivity].
Qed.

Lemma spherical_harmonic_invalid (theta phi : R) (l m : Z) :
  Z.abs m > l -> spherical_harmonic sph_harm theta phi l m = Raise ValueError.
Proof.
  intros H. unfold spherical_harmonic.
  destruct (Z.gtb_spec (Z.abs m) l) as [_ | C]; [reflexivity | lia].
Qed.

(** C7. [spherical_harmonic theta phi l m] raises [ValueError] whenever
    [|m| > l], whatever the angles, and does not raise for integers [l >= 0]
    with [|m| <= l]: there it returns the value of [sph_harm]. *)
Theorem spherical_harmonic_contract (theta phi : R) (l m : Z) :
  (Z.abs m > l ->
     raises (spherical_harmonic sph_harm theta phi l m) ValueError) /\
  (0 <= l -> Z.abs m <= l ->
     returns (spherical_harmonic sph_harm theta phi l m) /\
     forall e, ~ raises (spherical_harmonic sph_harm theta phi l m) e).
Proof.
  unfold raises, returns. split.
  - apply spherical_harmonic_invalid.
  - intros _ H. rewrite spherical_harmonic_valid by assumption.
    split; [eexists; reflexivity | intros e C; discriminate C].
Qed.

(** C8. For valid quantum numbers, [hydrogen_wavefunction] is the product of
    what [hydrogen_radial(r, n, l)] and [spherical_harmonic(theta, phi, l, m)]
    return, and [probability_density_radial] is [r^2 |R|^2] for the [R] that
    [hydrogen_radial(r, n, l)] returns. *)
Theorem wavefunction_and_density_compose
    (r theta phi : R) (n l m : Z) (normalize : bool) :
  1 <= n -> 0 <= l < n -> Z.abs m <= l ->
  exists (Rnl : R) (Y : complex),
    hydrogen_radial r n l true = Ok Rnl /\
    spherical_harmonic sph_harm theta phi l m = Ok Y /\
    hydrogen_wavefunction sph_harm r theta phi n l m normalize
      = Ok (Cmul (RtoC Rnl) Y) /\
    probability_density_radial r n l = Ok (r ^ 2 * Rabs Rnl ^ 2)%R.
Proof.
  intros Hn Hl Hm.
  exists (closed_form_radial (Z.to_nat n) (Z.to_nat l) r), (sph_harm m l phi theta).
  unfold hydrogen_wavefunction, probability_density_radial.
  rewrite !hydrogen_radial_valid by assumption.
  rewrite spherical_harmonic_valid by assumption.
  cbn [bind]. repeat split.
Qed.

(** C10. The [normalized] flag of [hydrogen_radial] and the [normalize] flag
    of [hydrogen_wavefunction] have no effect: on every input the call with
    the flag [False] gives what the call with [True] gives. *)
Theorem normalization_flags_ignored
    (r theta phi : R) (n l m : Z) :
  hydrogen_radial r n l false = hydrogen_radial r n l true /\
  hydrogen_wavefunction sph_harm r theta phi n l m false
    = hydrogen_wavefunction sph_harm r theta phi n l m true.
Proof. split; reflexivity. Qed.

End AngularTheorems.

Lemma spherical_harmonic_contract_witness :
  raises (spherical_harmonic (fun _ _ _ _ => RtoC 1) 0 0 1 2) ValueError /\
  returns (spherical_harmonic (fun _ _ _ _ => RtoC 1) 0 0 1 (-1)).
Proof.
  split.
  - apply (proj1 (spherical_harmonic_contract (fun _ _ _ _ => RtoC 1) 0 0 1 2)).
    lia.
  - apply (proj2 (spherical_harmonic_contract (fun _ _ _ _ => RtoC 1) 0 0 1 (-1)));
      lia.
Defined.

Lemma wavefunction_and_density_compose_witness :
  exists (Rnl : R) (Y : complex),
    hydrogen_radial 1 2 1 true = Ok Rnl /\
    spherical_harmonic (fun _ _ _ _ => RtoC 1) 0 0 1 (-1) = Ok Y /\
    hydrogen_wavefunction (fun _ _ _ _ => RtoC 1) 1 0 0 2 1 (-1) true
      = Ok (Cmul (RtoC Rnl) Y) /\
    probability_density_radial 1 2 1 = Ok (1 ^ 2 * Rabs Rnl ^ 2)%R.
Proof.
  apply (wavefunction_and_density_compose (fun _ _ _ _ => RtoC 1) 1 0 0 2 1 (-1) true);
    lia.
Defined.

(** * The solver placeholders *)

(** The claim as the specification words it fails: [solve_radial_schrodinger]
    hands its caller a pair, whose second component is the analytic
    energy. *)
Lemma solve_radial_schrodinger_returns_pair :
  Schrodinger.solve_radial_schrodinger [1%R] 1 0 None
    = Ok (Schrodinger.PyTuple Schrodinger.PyNone (Schrodinger.PyFloat (- 0.5)))
  /\ Schrodinger.solve_radial_schrodinger [1%R] 1 0 None
    <> Ok Schrodinger.PyNone.
Proof.
  unfold Schrodinger.solve_radial_schrodinger.
  rewrite energy_eigenvalue_valid by lia. cbn [bind]. split.
  - do 3 f_equal. lra.
  - discriminate.
Qed.

(** C3 (amended). For [n >= 1], whatever the grid, [l] and the potential,
    [solve_radial_schrodinger] solves nothing and returns the pair
    [(None, -1/(2 n^2))]: no wavefunction, and the analytic energy;
    [shooting_method] returns [None]. *)
Theorem solver_placeholders_return
    (r : list R) (n l : Z) (V_func : option (R -> R))
    (self : Schrodinger.RadialSolver) :
  1 <= n ->
  Schrodinger.solve_radial_schrodinger r n l V_func
    = Ok (Schrodinger.PyTuple Schrodinger.PyNone
            (Schrodinger.PyFloat (- (1 / (2 * IZR n ^ 2)))))
  /\ Schrodinger.shooting_method self n = Ok Schrodinger.PyNone.
Proof.
  intros Hn.
  unfold Schrodinger.solve_radial_schrodinger, Schrodinger.shooting_method.
  rewrite (energy_eigenvalue_valid n Hn). split; reflexivity.
Qed.

Lemma solver_placeholders_return_witness :
  Schrodinger.solve_radial_schrodinger [1%R] 2 1 None
    = Ok (Schrodinger.PyTuple Schrodinger.PyNone
            (Schrodinger.PyFloat (- (1 / (2 * IZR 2 ^ 2)))))
  /\ Schrodinger.shooting_method
       {| Schrodinger.l := 1; Schrodinger.r_max := 1;
          Schrodinger.r := [1e-10; 1]%R; Schrodinger.dr := (1 - 1e-10)%R |} 2
     = Ok Schrodinger.PyNone.
Proof.
  apply solver_placeholders_return. lia.
Defined.

(** * Importing the package *)

Section ImportTheorems.

Import Package.

Variable installed : string -> option namespace.

Ltac split_on_environment :=
  repeat match goal with
    | |- context [installed ?m] => destruct (installed m)
    | |- context [first_missing ?a ?b] => destruct (first_missing a b)
    end.

Ltac import_error := right; eexists; split; [| reflexivity]; reflexivity.

Lemma run_module_S (fuel : nat) (body : list statement) :
  run_module installed (S fuel) body
  = run_body installed (run_module installed fuel) body [].
Proof. reflexivity. Qed.

Lemma run_wavefunctions (fuel : nat) :
  (1 <= fuel)%nat ->
  ends_or_import_error (run_module installed fuel wavefunctions_py)
    wavefunctions_ns.
Proof.
  intros H. destruct fuel as [| f]; [lia |].
  unfold ends_or_import_error. cbn -[first_missing].
  split_on_environment; try import_error.
  left; reflexivity.
Qed.

Lemma run_schrodinger (fuel : nat) :
  (2 <= fuel)%nat ->
  ends_or_import_error (run_module installed fuel schrodinger_py)
    schrodinger_ns.
Proof.
  intros H. destruct fuel as [| f]; [lia |].
  unfold ends_or_import_error. rewrite run_module_S.
  cbn -[first_missing run_module wavefunctions_py].
  destruct (run_wavefunctions f ltac:(lia)) as [Hw | [e [He Hw]]];
    split_on_environment; try import_error; rewrite Hw.
  - left; reflexivity.
  - right. exists e. split; [exact He | reflexivity].
Qed.

(** [import src] stops on an [ImportError]: at the latest on the import of
    [numerics], of which the package has no file. *)
Lemma import_package_raises (fuel : nat) :
  (3 <= fuel)%nat ->
  exists e, is_ImportError e = true /\
            import_package installed fuel = Some (Raise e).
Proof.
  intros H. destruct fuel as [| f]; [lia |].
  unfold import_package. rewrite run_module_S.
  cbn -[first_missing run_module wavefunctions_py schrodinger_py].
  destruct (run_wavefunctions f ltac:(lia)) as [Hw | [e [He Hw]]]; rewrite Hw.
  - cbn -[run_module wavefunctions_py schrodinger_py].
    destruct (run_schrodinger f ltac:(lia)) as [Hs | [e [He Hs]]]; rewrite Hs.
    + exists (ModuleNotFoundError "src.numerics"). split; reflexivity.
    + exists e. split; [exact He | reflexivity].
  - exists e. split; [exact He | reflexivity].
Qed.

(** Without numpy the import of the package stops at the first statement of
    [wavefunctions.py]. *)
Example import_package_without_numpy :
  import_package (fun _ => None) 3 = Some (Raise (ModuleNotFoundError "numpy")).
Proof. reflexivity. Qed.

(** With numpy and scipy in place both modules of the package load, and
    the import stops exactly at [numerics]. *)
Lemma dependencies_installed_inv :
  dependencies_installed installed = true ->
  forall fuel, (1 <= fuel)%nat ->
    run_module installed fuel wavefunctions_py = Some (Ok wavefunctions_ns) /\
    run_module installed (S fuel) schrodinger_py = Some (Ok schrodinger_ns).
Proof.
  unfold dependencies_installed. intros Hdeps fuel Hfuel.
  apply andb_true_iff in Hdeps. destruct Hdeps as [Hw Hs].
  assert (run_module installed fuel wavefunctions_py = Some (Ok wavefunctions_ns))
    as Ew.
  { destruct fuel as [| f]; [lia |]. rewrite run_module_S.
    revert Hw. clear. cbn -[first_missing].
    split_on_environment; cbn; try discriminate. reflexivity. }
  split; [exact Ew |].
  rewrite run_module_S.
  revert Hs. cbn -[first_missing run_module wavefunctions_py].
  split_on_environment; cbn -[run_module wavefunctions_py]; try discriminate.
  intros _. rewrite Ew. reflexivity.
Qed.

Lemma import_package_stops_at_numerics (fuel : nat) :
  dependencies_installed installed = true ->
  (3 <= fuel)%nat ->
  import_package installed fuel
  = Some (Raise (ModuleNotFoundError "src.numerics")).
Proof.
  intros Hdeps H. destruct fuel as [| f]; [lia |].
  destruct (dependencies_installed_inv Hdeps f ltac:(lia)) as [Ew _].
  destruct f as [| f']; [lia |].
  destruct (dependencies_installed_inv Hdeps f' ltac:(lia)) as [_ Es].
  unfold import_package. rewrite run_module_S.
  cbn -[first_missing run_module wavefunctions_py schrodinger_py].
  rewrite Ew. cbn -[run_module wavefunctions_py schrodinger_py].
  rewrite Es. reflexivity.
Qed.

(** C4. Importing the package raises an [ImportError]: [__init__.py] imports
    the modules [numerics], [visualization] and [spectroscopy], of which the
    repository has no file; every import of a name through the package
    raises the same error, so nothing of the call surface is reachable
    through it. *)
Theorem package_import_raises (fuel : nat) :
  (3 <= fuel)%nat ->
  (forall m,
     In m ["numerics"; "visualization"; "spectroscopy"]%string ->
     (exists names, In (FromRelativeImport m names) init_py) /\
     find_module m package_files = None) /\
  (exists e,
     is_ImportError e = true /\
     import_package installed fuel = Some (Raise e) /\
     forall m names,
       from_package_import installed fuel m names = Some (Raise e)) /\
  (dependencies_installed installed = true ->
   import_package installed fuel
   = Some (Raise (ModuleNotFoundError "src.numerics"))).
Proof.
  intros H. split; [| split].
  - intros m Hm. cbn in Hm.
    destruct Hm as [<- | [<- | [<- | []]]];
      (split; [eexists; cbn; tauto | reflexivity]).
  - destruct (import_package_raises fuel H) as [e [He Himp]].
    exists e. split; [exact He | split; [exact Himp |]].
    intros m names. unfold from_package_import. rewrite Himp. reflexivity.
  - intros Hdeps. apply import_package_stops_at_numerics; assumption.
Qed.

End ImportTheorems.

Lemma package_import_raises_witness :
  Package.import_package Package.site_packages 3
  = Some (Raise (ModuleNotFoundError "src.numerics")).
Proof.
  apply (proj2 (proj2 (package_import_raises Package.site_packages 3 ltac:(lia)))).
  reflexivity.
Defined.

(** * The normalisation check *)

Lemma hydrogen_radial_array_valid (rs : list R) (n l : Z) (normalized : bool) :
  1 <= n -> 0 <= l < n ->
  hydrogen_radial_array rs n l normalized
  = Ok (map (closed_form_radial (Z.to_nat n) (Z.to_nat l)) rs).
Proof.
  intros Hn Hl. unfold hydrogen_radial_array.
  rewrite (proj2 (guard_false_iff n l)) by lia.
  rewrite genlaguerre_valid by lia. cbn [bind].
  f_equal. rewrite map_map. apply map_ext. intros r.
  apply radial_body_closed_form; assumption.
Qed.

Lemma map_combine_map {A B C : Type} (g : A * B -> C) (f : A -> B) (xs : list A) :
  map g (combine xs (map f xs)) = map (fun x => g (x, f x)) xs.
Proof.
  induction xs as [| x xs IH]; [reflexivity |].
  cbn [map combine]. rewrite IH. reflexivity.
Qed.

(** On valid quantum numbers and a grid of [num_points >= 0] samples,
    [normalization_check] is the trapezoid sum of [r^2 |R_{n,l}(r)|^2] over
    the uniform grid on [[0, r_max]]. *)
Lemma normalization_check_quadrature (n l : Z) (r_max : R) (num_points : Z) :
  1 <= n -> 0 <= l < n -> 0 <= num_points ->
  exists grid : list R,
    linspace 0 r_max num_points = Ok grid /\
    List.length grid = Z.to_nat num_points /\
    normalization_check n l r_max num_points
    = Ok (trapezoid_sum
            (map (fun r =>
                    (r ^ 2 * Rabs (closed_form_radial (Z.to_nat n) (Z.to_nat l) r) ^ 2)%R)
                 grid)
            grid).
Proof.
  intros Hn Hl Hp. unfold normalization_check, linspace.
  destruct (Z.ltb_spec num_points 0) as [C | _]; [lia |].
  eexists. split; [reflexivity |]. split.
  - rewrite length_map, length_seq. reflexivity.
  - cbn [bind]. rewrite hydrogen_radial_array_valid by assumption.
    cbn [bind]. rewrite map_combine_map. cbn [fst snd].
    unfold trapezoid. rewrite !length_map, Nat.eqb_refl. reflexivity.
Qed.

(** * Further properties of wavefunctions.py *)

Lemma IZR_ge_1 (n : Z) : 1 <= n -> (1 <= IZR n)%R.
Proof. intros H. apply IZR_le in H. exact H. Qed.

(** The energy levels never fall as [n] grows: they start at [-0.5] or
    above and stay below the ionisation limit [0], which they never reach.
    Up to [n = 2^20], where [2 n^2] is far inside the integers that binary64
    holds exactly and two levels are never the same float, they rise
    strictly. *)
Theorem energy_eigenvalue_monotone (n m : Z) :
  1 <= n -> n < m ->
  exists E_n E_m : R,
    energy_eigenvalue n = Ok E_n /\
    energy_eigenvalue m = Ok E_m /\
    (- 0.5 <= E_n)%R /\ (E_n <= E_m)%R /\ (E_m < 0)%R /\
    (m <= 2 ^ 20 -> (E_n < E_m)%R).
Proof.
  intros Hn Hnm.
  exists (- (1 / (2 * IZR n ^ 2)))%R, (- (1 / (2 * IZR m ^ 2)))%R.
  rewrite !energy_eigenvalue_valid by lia.
  pose proof (IZR_ge_1 n Hn) as Ha.
  assert (IZR n < IZR m)%R as Hab by (apply IZR_lt; exact Hnm).
  assert (0 < 2 * IZR n ^ 2)%R as Hpa by nra.
  assert (0 < 2 * IZR m ^ 2)%R as Hpb by nra.
  assert (2 * IZR n ^ 2 < 2 * IZR m ^ 2)%R as Hlt by nra.
  assert (/ (2 * IZR m ^ 2) < / (2 * IZR n ^ 2))%R as Hinv
    by (apply Rinv_lt_contravar; [nra | exact Hlt]).
  assert (/ (2 * IZR n ^ 2) <= / 2)%R as Hhalf
    by (apply Rinv_le_contravar; nra).
  assert (0 < / (2 * IZR m ^ 2))%R as Hposm by (apply Rinv_0_lt_compat; exact Hpb).
  unfold Rdiv. rewrite !Rmult_1_l.
  repeat split; lra.
Qed.

Lemma energy_eigenvalue_monotone_witness :
  exists E_n E_m : R,
    energy_eigenvalue 2 = Ok E_n /\
    energy_eigenvalue 3 = Ok E_m /\
    (- 0.5 <= E_n)%R /\ (E_n <= E_m)%R /\ (E_m < 0)%R /\
    (E_n < E_m)%R.
Proof.
  destruct (energy_eigenvalue_monotone 2 3 ltac:(lia) ltac:(lia))
    as (E_n & E_m & Hn & Hm & Hlow & Hle & Hneg & Hlt).
  exists E_n, E_m. repeat split; try assumption. apply Hlt. lia.
Defined.

(** [expectation_value_r] past its division is [(3 n^2 - l (l+1)) / 2]. *)
Lemma expectation_value_r_nonzero (n l : Z) :
  n <> 0 ->
  expectation_value_r n l
  = Ok ((3 * IZR n ^ 2 - IZR l * (IZR l + 1)) / 2)%R.
Proof.
  intros Hn. unfold expectation_value_r, BOHR_RADIUS.
  destruct (Z.eqb_spec (2 * n ^ 2) 0) as [C | _]; [nia |].
  f_equal. rewrite !mult_IZR, plus_IZR.
  change 2 with (Z.of_nat 2) at 1 3. rewrite <- !pow_IZR.
  assert (IZR n <> 0)%R as Hr by (apply not_0_IZR; exact Hn).
  replace 1.0%R with 1%R by lra. replace 1.5%R with (3 / 2)%R by lra.
  field. exact Hr.
Qed.

Lemma expectation_value_r_zero (l : Z) :
  expectation_value_r 0 l = Raise ZeroDivisionError.
Proof. reflexivity. Qed.

(** [expectation_value_r] checks no quantum number: the only exception of
    its division is [ZeroDivisionError], raised exactly at [n = 0], and it is
    never [ValueError]; at every other [n], and every [l], valid or not, of
    magnitude up to [2^500] (so that [n^2], [l (l+1)] and their quotient are
    within the range of a float) it returns [(3 n^2 - l (l+1)) / 2]. *)
Theorem expectation_value_r_unchecked (n l : Z) :
  (raises (expectation_value_r n l) ZeroDivisionError <-> n = 0) /\
  ~ raises (expectation_value_r n l) ValueError /\
  (n <> 0 -> Z.abs n <= 2 ^ 500 -> Z.abs l <= 2 ^ 500 ->
   expectation_value_r n l
   = Ok ((3 * IZR n ^ 2 - IZR l * (IZR l + 1)) / 2)%R).
Proof.
  unfold raises. destruct (Z.eq_dec n 0) as [-> | Hn].
  - rewrite expectation_value_r_zero.
    repeat split; try reflexivity; try discriminate. intros C. contradiction.
  - rewrite (expectation_value_r_nonzero n l Hn).
    repeat split; try discriminate. intros C. contradiction.
Qed.

Lemma expectation_value_r_unchecked_witness :
  expectation_value_r 1 5
  = Ok ((3 * IZR 1 ^ 2 - IZR 5 * (IZR 5 + 1)) / 2)%R.
Proof.
  apply (proj2 (proj2 (expectation_value_r_unchecked 1 5)));
    [lia | vm_compute; discriminate | vm_compute; discriminate].
Defined.

(** Within a shell [n <= 2^20] (where the differences below are far above
    the rounding of binary64) the mean radius falls as [l] grows, and stays
    between [n^2] and [3 n^2 / 2]. *)
Theorem expectation_value_r_decreasing_in_l (n l l' : Z) :
  0 <= l -> l < l' -> l' < n -> n <= 2 ^ 20 ->
  exists mean mean' : R,
    expectation_value_r n l = Ok mean /\
    expectation_value_r n l' = Ok mean' /\
    (IZR n ^ 2 < mean')%R /\ (mean' < mean)%R /\ (mean <= 3 * IZR n ^ 2 / 2)%R.
Proof.
  intros Hl Hll Hn _.
  do 2 eexists.
  rewrite !expectation_value_r_nonzero by lia.
  split; [reflexivity |]. split; [reflexivity |].
  assert (0 <= IZR l)%R as H0 by (apply IZR_le; exact Hl).
  assert (IZR l + 1 <= IZR l')%R as H1
    by (rewrite <- plus_IZR; apply IZR_le; lia).
  assert (IZR l' + 1 <= IZR n)%R as H2
    by (rewrite <- plus_IZR; apply IZR_le; lia).
  repeat split; nra.
Qed.

Lemma expectation_value_r_decreasing_in_l_witness :
  exists mean mean' : R,
    expectation_value_r 3 0 = Ok mean /\
    expectation_value_r 3 2 = Ok mean' /\
    (IZR 3 ^ 2 < mean')%R /\ (mean' < mean)%R /\ (mean <= 3 * IZR 3 ^ 2 / 2)%R.
Proof. apply (expectation_value_r_decreasing_in_l 3 0 2); lia. Defined.

Lemma uncertainty_r_radicand (n l : Z) :
  ((1.0 * IZR n) ^ 2 * (IZR (n ^ 2) * (5 / 2 + 1) - IZR (3 * l * (l + 1)) / 2)
   - ((3 * IZR n ^ 2 - IZR l * (IZR l + 1)) / 2) ^ 2
   = (5 * IZR n ^ 4 - (IZR l * (IZR l + 1)) ^ 2) / 4)%R.
Proof.
  rewrite !mult_IZR, plus_IZR.
  change 2 with (Z.of_nat 2) at 1. rewrite <- pow_IZR.
  replace 1.0%R with 1%R by lra. field.
Qed.

(** [uncertainty_r] raises [ZeroDivisionError] only at [n = 0], through
    [expectation_value_r], and does so there for every [l] of magnitude up
    to [2^500] (beyond the range of a float, [expectation_value_r_squared] is
    the first to fail).  On valid quantum numbers with [n <= 2^20] what it
    takes the root of is [(5 n^4 - l^2 (l+1)^2) / 4 > n^4], so the spread is
    a real number above [n^2]. *)
Theorem uncertainty_r_contract (n l : Z) :
  (raises (uncertainty_r n l) ZeroDivisionError -> n = 0) /\
  (n = 0 -> Z.abs l <= 2 ^ 500 ->
   raises (uncertainty_r n l) ZeroDivisionError) /\
  (1 <= n -> n <= 2 ^ 20 -> 0 <= l < n ->
   exists delta_r : R,
     uncertainty_r n l = Ok delta_r /\
     (delta_r ^ 2 = (5 * IZR n ^ 4 - (IZR l * (IZR l + 1)) ^ 2) / 4)%R /\
     (IZR n ^ 2 < delta_r)%R).
Proof.
  unfold raises, uncertainty_r, expectation_value_r_squared, BOHR_RADIUS.
  cbn [bind]. split; [| split].
  - destruct (Z.eq_dec n 0) as [-> | Hn]; [reflexivity |].
    rewrite (expectation_value_r_nonzero n l Hn). cbn [bind]. discriminate.
  - intros -> _. rewrite expectation_value_r_zero. reflexivity.
  - intros Hn _ Hl. rewrite expectation_value_r_nonzero by lia. cbn [bind].
    rewrite uncertainty_r_radicand.
    pose proof (IZR_ge_1 n Hn) as Ha.
    assert (0 <= IZR l)%R as H0 by (apply IZR_le; lia).
    assert (IZR l + 1 <= IZR n)%R as H1
      by (rewrite <- plus_IZR; apply IZR_le; lia).
    assert (IZR l * (IZR l + 1) < IZR n ^ 2)%R as HL by nra.
    assert (0 <= IZR l * (IZR l + 1))%R as HL0 by nra.
    assert (IZR n ^ 2 * IZR n ^ 2
            < (5 * IZR n ^ 4 - (IZR l * (IZR l + 1)) ^ 2) / 4)%R as Hrad by nra.
    eexists. split; [reflexivity |]. split.
    + apply pow2_sqrt. nra.
    + rewrite <- (sqrt_square (IZR n ^ 2)) at 1 by nra.
      apply sqrt_lt_1_alt. split; [nra | exact Hrad].
Qed.

Lemma uncertainty_r_contract_witness :
  raises (uncertainty_r 0 3) ZeroDivisionError /\
  exists delta_r : R,
    uncertainty_r 2 1 = Ok delta_r /\
    (delta_r ^ 2 = (5 * IZR 2 ^ 4 - (IZR 1 * (IZR 1 + 1)) ^ 2) / 4)%R /\
    (IZR 2 ^ 2 < delta_r)%R.
Proof.
  split.
  - apply (proj1 (proj2 (uncertainty_r_contract 0 3)));
      [reflexivity | vm_compute; discriminate].
  - apply (proj2 (proj2 (uncertainty_r_contract 2 1))); lia.
Defined.

(** ** Where the normalisation constant leaves the range of binary64 *)







(** [L_k^1(0) = k + 1]. *)
Lemma laguerre_pair_alpha_1_at_0 (k : nat) :
  laguerre_pair k 1 0 = (INR k + 1, INR k + 2)%R.
Proof.
  induction k as [| k IH].
  - cbn. f_equal; lra.
  - cbn [laguerre_pair]. rewrite IH. rewrite S_INR.
    pose proof (pos_INR k) as Hk.
    f_equal; [lra | field; lra].
Qed.

(** At the nucleus, for the states whose normalisation constant is within
    binary64 ([n + l <= 169]): a state with [l >= 1] vanishes, an s-state
    has the value [2 / sqrt(n^3)]. *)
Theorem hydrogen_radial_at_origin (n l : Z) (normalized : bool) :
  (1 <= l -> l < n -> n + l <= 169 ->
   hydrogen_radial 0 n l normalized = Ok 0%R) /\
  (1 <= n -> n <= 169 ->
   hydrogen_radial 0 n 0 normalized = Ok (2 / sqrt (IZR n ^ 3))%R).
Proof.
  split.
  - intros Hl Hn _. rewrite hydrogen_radial_valid by lia. f_equal.
    unfold closed_form_radial.
    replace (2 * 0 / INR (Z.to_nat n))%R with 0%R by (unfold Rdiv; lra).
    rewrite pow_i by lia. lra.
  - intros Hn _. rewrite hydrogen_radial_valid by lia. f_equal.
    rewrite (IZR_to_nat n) by lia.
    assert (1 <= Z.to_nat n)%nat as HN by lia.
    destruct (Z.to_nat n) as [| k]; [lia |]. clear HN Hn.
    unfold closed_form_radial, laguerre. change (Z.to_nat 0) with 0%nat.
    replace (S k - 0 - 1)%nat with k by lia.
    replace (S k + 0)%nat with (S k) by lia.
    change (INR (2 * 0 + 1)) with 1%R.
    replace (2 * 0 / INR (S k))%R with 0%R by (unfold Rdiv; lra).
    rewrite laguerre_pair_alpha_1_at_0. cbn [fst pow].
    replace (- 0 / 2)%R with 0%R by lra. rewrite exp_0.
    rewrite fact_simpl, mult_INR.
    rewrite <- S_INR.
    assert (0 < INR (S k))%R as Ha by (apply lt_0_INR; lia).
    pose proof (INR_fact_lt_0 k) as Hf.
    generalize dependent (INR (fact k)). generalize dependent (INR (S k)).
    intros a Ha f Hf.
    replace (2 / a * (2 / a * (2 / a * 1)) * f / (2 * a * (a * f)))%R
      with (4 / (a * (a * (a * 1))) * / (a * a))%R by (field; split; lra).
    assert (0 < a * (a * (a * 1)))%R as Ha3
      by (repeat apply Rmult_lt_0_compat; lra).
    assert (0 < 4 / (a * (a * (a * 1))) * / (a * a))%R as HX.
    { apply Rmult_lt_0_compat; [apply Rdiv_lt_0_compat; lra |].
      apply Rinv_0_lt_compat. nra. }
    pose proof (sqrt_sqrt _ (Rlt_le _ _ HX)) as Hs1.
    pose proof (sqrt_pos (4 / (a * (a * (a * 1))) * / (a * a))) as Hp1.
    pose proof (sqrt_sqrt _ (Rlt_le _ _ Ha3)) as Hs3.
    pose proof (sqrt_lt_R0 _ Ha3) as Hp3.
    generalize dependent (sqrt (4 / (a * (a * (a * 1))) * / (a * a))).
    generalize dependent (sqrt (a * (a * (a * 1)))).
    intros s3 Hs3 Hp3 s1 Hs1 Hp1.
    apply Rsqr_inj.
    + apply Rmult_le_pos; lra.
    + apply Rlt_le, Rdiv_lt_0_compat; lra.
    + unfold Rsqr.
      replace (s1 * 1 * 1 * a * (s1 * 1 * 1 * a))%R
        with (s1 * s1 * (a * a))%R by ring.
      replace (2 / s3 * (2 / s3))%R with (4 / (s3 * s3))%R by (field; lra).
      rewrite Hs1, Hs3. field. lra.
Qed.

Lemma hydrogen_radial_at_origin_witness :
  hydrogen_radial 0 3 1 true = Ok 0%R /\
  hydrogen_radial 0 3 0 true = Ok (2 / sqrt (IZR 3 ^ 3))%R.
Proof.
  split.
  - apply (proj1 (hydrogen_radial_at_origin 3 1 true)); lia.
  - apply (proj2 (hydrogen_radial_at_origin 3 0 true)); lia.
Defined.

Section WavefunctionDomain.

Variable sph_harm : Z -> Z -> R -> R -> complex.

(** [hydrogen_wavefunction] returns exactly on the quantum numbers of a
    state, [n >= 1], [0 <= l < n], [|m| <= l], and raises [ValueError] on
    all others: the two guards it passes through check all three numbers. *)
Theorem hydrogen_wavefunction_domain
    (r theta phi : R) (n l m : Z) (normalize : bool) :
  (returns (hydrogen_wavefunction sph_harm r theta phi n l m normalize)
     <-> 1 <= n /\ 0 <= l < n /\ Z.abs m <= l) /\
  (raises (hydrogen_wavefunction sph_harm r theta phi n l m normalize) ValueError
     <-> n < 1 \/ l < 0 \/ l >= n \/ Z.abs m > l).
Proof.
  unfold returns, raises, hydrogen_wavefunction.
  destruct (Z_lt_dec n 1) as [Hn | Hn];
    [| destruct (Z_lt_dec l 0) as [Hl | Hl];
       [| destruct (Z_ge_dec l n) as [Hln | Hln]]].
  1-3: rewrite hydrogen_radial_invalid by lia; cbn [bind];
    (split; split; [intros [a Ha]; discriminate Ha | lia | lia | reflexivity]).
  rewrite hydrogen_radial_valid by lia. cbn [bind].
  destruct (Z_gt_dec (Z.abs m) l) as [Hm | Hm].
  - rewrite spherical_harmonic_invalid by lia. cbn [bind].
    split; split; [intros [a Ha]; discriminate Ha | lia | lia | reflexivity].
  - rewrite spherical_harmonic_valid by lia. cbn [bind].
    split; split; [lia | intros _; eexists; reflexivity | discriminate | lia].
Qed.

End WavefunctionDomain.

(** The radial probability density is defined on the valid [(n, l)] only.
    For the states whose normalisation constant is within binary64
    ([n + l <= 169]) it vanishes at the nucleus, and on [0 <= r <= 100],
    where no factor of the product leaves the range of a float, it is never
    negative. *)
Theorem probability_density_radial_nonneg (r : R) (n l : Z) :
  (raises (probability_density_radial r n l) ValueError
     <-> n < 1 \/ l < 0 \/ l >= n) /\
  (1 <= n -> 0 <= l < n -> n + l <= 169 ->
   probability_density_radial 0 n l = Ok 0%R /\
   ((0 <= r <= 100)%R ->
    exists P : R, probability_density_radial r n l = Ok P /\ (0 <= P)%R)).
Proof.
  unfold raises, probability_density_radial. split.
  - destruct (Z_lt_dec n 1) as [Hn | Hn];
      [| destruct (Z_lt_dec l 0) as [Hl | Hl];
         [| destruct (Z_ge_dec l n) as [Hln | Hln]]].
    1-3: rewrite hydrogen_radial_invalid by lia; cbn [bind];
      (split; [lia | reflexivity]).
    rewrite hydrogen_radial_valid by lia. cbn [bind].
    split; [discriminate | lia].
  - intros Hn Hl _. rewrite !hydrogen_radial_valid by lia. cbn [bind]. split.
    + f_equal. ring.
    + intros _. eexists. split; [reflexivity |].
      apply Rmult_le_pos; apply pow2_ge_0.
Qed.

Lemma probability_density_radial_nonneg_witness :
  probability_density_radial 0 2 1 = Ok 0%R /\
  exists P : R, probability_density_radial 1 2 1 = Ok P /\ (0 <= P)%R.
Proof.
  destruct (proj2 (probability_density_radial_nonneg 1 2 1)
              ltac:(lia) ltac:(lia) ltac:(lia)) as [H0 HP].
  split; [exact H0 | apply HP; lra].
Defined.

(** * Further properties of the normalisation check *)

Lemma hydrogen_radial_array_invalid (rs : list R) (n l : Z) (normalized : bool) :
  n < 1 \/ l < 0 \/ l >= n ->
  hydrogen_radial_array rs n l normalized = Raise ValueError.
Proof.
  intros H. unfold hydrogen_radial_array.
  rewrite (proj2 (guard_true_iff n l) H). reflexivity.
Qed.

(** The errors and the degenerate grids of [normalization_check]: a negative
    [num_points] and invalid quantum numbers are a [ValueError]; on a grid
    of no point or of one point the integral is [0], whatever the state. *)
Theorem normalization_check_degenerate
    (n l : Z) (r_max : R) (num_points : Z) :
  (num_points < 0 \/ n < 1 \/ l < 0 \/ l >= n ->
   raises (normalization_check n l r_max num_points) ValueError) /\
  (1 <= n -> 0 <= l < n -> 0 <= num_points <= 1 ->
   normalization_check n l r_max num_points = Ok 0%R).
Proof.
  unfold raises. split.
  - intros H. unfold normalization_check, linspace.
    destruct (Z.ltb_spec num_points 0) as [C | C]; [reflexivity |].
    cbn [bind]. rewrite hydrogen_radial_array_invalid by lia. reflexivity.
  - intros Hn Hl Hp.
    destruct (normalization_check_quadrature n l r_max num_points Hn Hl
                ltac:(lia)) as [grid [_ [Hlen ->]]].
    f_equal.
    destruct grid as [| x0 [| x1 grid]]; [reflexivity | reflexivity |].
    cbn [List.length] in Hlen. lia.
Qed.

Lemma normalization_check_degenerate_witness :
  raises (normalization_check 1 0 50 (-1)) ValueError /\
  normalization_check 1 0 50 1 = Ok 0%R.
Proof.
  split.
  - apply (proj1 (normalization_check_degenerate 1 0 50 (-1))). lia.
  - apply (proj2 (normalization_check_degenerate 1 0 50 1)); lia.
Defined.






Lemma hydrogen_wavefunction_domain_witness :
  returns (hydrogen_wavefunction (fun _ _ _ _ => RtoC 1) 1 0 0 2 1 (-1) true) /\
  raises (hydrogen_wavefunction (fun _ _ _ _ => RtoC 1) 1 0 0 2 1 2 true)
    ValueError.
Proof.
  split.
  - apply (proj1 (hydrogen_wavefunction_domain
                    (fun _ _ _ _ => RtoC 1) 1 0 0 2 1 (-1) true)).
    lia.
  - apply (proj2 (hydrogen_wavefunction_domain
                    (fun _ _ _ _ => RtoC 1) 1 0 0 2 1 2 true)).
    lia.
Defined.

(** * Further properties of schrodinger.py *)

(** The placeholders check [n] and nothing else: they raise [ValueError]
    exactly when [n < 1], through [energy_eigenvalue], and neither the grid,
    nor [l], nor the potential has any part in what
    [solve_radial_schrodinger] returns. *)
Theorem solver_placeholders_check_only_n
    (r : list R) (n l : Z) (V_func : option (R -> R))
    (self : Schrodinger.RadialSolver) :
  (raises (Schrodinger.solve_radial_schrodinger r n l V_func) ValueError
     <-> n < 1) /\
  (raises (Schrodinger.shooting_method self n) ValueError <-> n < 1) /\
  (forall r' l' V_func',
     Schrodinger.solve_radial_schrodinger r' n l' V_func'
     = Schrodinger.solve_radial_schrodinger r n l V_func).
Proof.
  unfold raises, Schrodinger.solve_radial_schrodinger,
    Schrodinger.shooting_method.
  destruct (Z_lt_dec n 1) as [Hn | Hn].
  - rewrite energy_eigenvalue_invalid by lia. cbn [bind].
    repeat split; try reflexivity; intros; lia.
  - rewrite energy_eigenvalue_valid by lia. cbn [bind].
    repeat split; try reflexivity; try discriminate; intros; lia.
Qed.

Lemma solver_placeholders_check_only_n_witness :
  raises (Schrodinger.solve_radial_schrodinger [1%R] 0 0 None) ValueError.
Proof.
  apply (proj1 (solver_placeholders_check_only_n [1%R] 0 0 None
                  {| Schrodinger.l := 0; Schrodinger.r_max := 1;
                     Schrodinger.r := [1e-10; 1]%R;
                     Schrodinger.dr := (1 - 1e-10)%R |})).
  lia.
Defined.

Lemma nth_map_seq {A : Type} (f : nat -> A) (n i : nat) (d : A) :
  (i < n)%nat -> nth i (map f (seq 0 n)) d = f i.
Proof.
  intros H.
  rewrite (nth_indep _ d (f 0%nat)) by (rewrite length_map, length_seq; exact H).
  rewrite map_nth, seq_nth by exact H. reflexivity.
Qed.

(** The samples of [linspace]: [num] of them, from [start], the last one at
    [stop]. *)
Lemma linspace_samples (start stop : R) (num : Z) :
  0 <= num ->
  exists grid : list R,
    linspace start stop num = Ok grid /\
    List.length grid = Z.to_nat num /\
    (forall i, (i < Z.to_nat num)%nat ->
       nth i grid 0%R = (start + INR i * ((stop - start) / (IZR num - 1)))%R).
Proof.
  intros H. unfold linspace.
  destruct (Z.ltb_spec num 0) as [C | _]; [lia |].
  eexists. split; [reflexivity |]. split.
  - rewrite length_map, length_seq. reflexivity.
  - intros i Hi. rewrite nth_map_seq by exact Hi. reflexivity.
Qed.

(** [RadialSolver(l_value, r_max, num_points)]: a negative [num_points] is a
    [ValueError], a grid of fewer than two points an [IndexError] (there is
    no [self.r[1]]); from two points on the solver holds a grid of
    [num_points] samples from [1e-10] to [r_max], and [dr] is the spacing
    [(r_max - 1e-10) / (num_points - 1)]. *)
Theorem RadialSolver_init_contract (l_value : Z) (r_max : R) (num_points : Z) :
  (num_points < 0 ->
   raises (Schrodinger.RadialSolver_init l_value r_max num_points) ValueError) /\
  (0 <= num_points <= 1 ->
   raises (Schrodinger.RadialSolver_init l_value r_max num_points) IndexError) /\
  (2 <= num_points ->
   exists self : Schrodinger.RadialSolver,
     Schrodinger.RadialSolver_init l_value r_max num_points = Ok self /\
     Schrodinger.l self = l_value /\
     Schrodinger.r_max self = r_max /\
     List.length (Schrodinger.r self) = Z.to_nat num_points /\
     nth 0 (Schrodinger.r self) 0%R = 1e-10%R /\
     nth (Z.to_nat num_points - 1) (Schrodinger.r self) 0%R = r_max /\
     Schrodinger.dr self = ((r_max - 1e-10) / (IZR num_points - 1))%R).
Proof.
  unfold raises, Schrodinger.RadialSolver_init. split; [| split].
  - intros H. unfold linspace.
    destruct (Z.ltb_spec num_points 0) as [_ | C]; [reflexivity | lia].
  - intros H.
    destruct (linspace_samples 1e-10 r_max num_points ltac:(lia))
      as [grid [-> [Hlen _]]].
    cbn [bind]. unfold Schrodinger.getitem.
    destruct (nth_error grid 1) eqn:E; [| reflexivity].
    assert (1 < List.length grid)%nat
      by (apply nth_error_Some; rewrite E; discriminate).
    lia.
  - intros H.
    destruct (linspace_samples 1e-10 r_max num_points ltac:(lia))
      as [grid [-> [Hlen Hnth]]].
    cbn [bind]. unfold Schrodinger.getitem.
    rewrite (nth_error_nth' grid 0%R (n := 1)) by lia.
    rewrite (nth_error_nth' grid 0%R (n := 0)) by lia.
    cbn [bind]. eexists. split; [reflexivity |]. cbn.
    assert (2 <= IZR num_points)%R as Hr by (apply IZR_le; lia).
    repeat split.
    + exact Hlen.
    + rewrite Hnth by lia. cbn [INR]. lra.
    + rewrite Hnth by lia.
      replace (INR (Z.to_nat num_points - 1)) with (IZR num_points - 1)%R.
      * field. lra.
      * rewrite (IZR_to_nat num_points) by lia.
        rewrite minus_INR by lia. reflexivity.
    + rewrite !Hnth by lia. cbn [INR]. lra.
Qed.

Lemma RadialSolver_init_contract_witness :
  raises (Schrodinger.RadialSolver_init 0 100 (-1)) ValueError /\
  raises (Schrodinger.RadialSolver_init 0 100 1) IndexError /\
  exists self : Schrodinger.RadialSolver,
    Schrodinger.RadialSolver_init 0 100 1000 = Ok self /\
    Schrodinger.l self = 0 /\
    Schrodinger.r_max self = 100%R /\
    List.length (Schrodinger.r self) = Z.to_nat 1000 /\
    nth 0 (Schrodinger.r self) 0%R = 1e-10%R /\
    nth (Z.to_nat 1000 - 1) (Schrodinger.r self) 0%R = 100%R /\
    Schrodinger.dr self = ((100 - 1e-10) / (IZR 1000 - 1))%R.
Proof.
  split; [| split].
  - apply (proj1 (RadialSolver_init_contract 0 100 (-1))). lia.
  - apply (proj1 (proj2 (RadialSolver_init_contract 0 100 1))). lia.
  - apply (proj2 (proj2 (RadialSolver_init_contract 0 100 1000))). lia.
Defined.

(** The solver that [RadialSolver_init] builds on two points or more. *)
Lemma RadialSolver_init_valid (l_value : Z) (r_max : R) (num_points : Z) :
  2 <= num_points ->
  Schrodinger.RadialSolver_init l_value r_max num_points
  = Ok {| Schrodinger.l := l_value;
          Schrodinger.r_max := r_max;
          Schrodinger.r :=
            map (fun i => (1e-10 + INR i * ((r_max - 1e-10) / (IZR num_points - 1)))%R)
                (seq 0 (Z.to_nat num_points));
          Schrodinger.dr :=
            (1e-10 + INR 1 * ((r_max - 1e-10) / (IZR num_points - 1))
             - (1e-10 + INR 0 * ((r_max - 1e-10) / (IZR num_points - 1))))%R |}.
Proof.
  intros H. unfold Schrodinger.RadialSolver_init, linspace.
  destruct (Z.ltb_spec num_points 0) as [C | _]; [lia |].
  cbn [bind]. unfold Schrodinger.getitem.
  set (grid := map _ (seq 0 (Z.to_nat num_points))).
  assert (List.length grid = Z.to_nat num_points) as Hlen
    by (unfold grid; rewrite length_map, length_seq; reflexivity).
  rewrite (nth_error_nth' grid 0%R (n := 1)) by lia.
  rewrite (nth_error_nth' grid 0%R (n := 0)) by lia.
  cbn [bind]. unfold grid. rewrite !nth_map_seq by lia. reflexivity.
Qed.

Lemma RadialSolver_init_short (l_value : Z) (r_max : R) (num_points : Z) :
  num_points <= 1 ->
  exists e, Schrodinger.RadialSolver_init l_value r_max num_points = Raise e.
Proof.
  intros H. unfold Schrodinger.RadialSolver_init, linspace.
  destruct (Z.ltb_spec num_points 0) as [C | C]; [eexists; reflexivity |].
  cbn [bind]. unfold Schrodinger.getitem.
  set (grid := map _ (seq 0 (Z.to_nat num_points))).
  assert (List.length grid = Z.to_nat num_points) as Hlen
    by (unfold grid; rewrite length_map, length_seq; reflexivity).
  destruct (nth_error grid 1) eqn:E; [| eexists; reflexivity].
  assert (1 < List.length grid)%nat
    by (apply nth_error_Some; rewrite E; discriminate).
  lia.
Qed.

(** The grid of a solver built with [r_max > 1e-10] stays away from the
    nucleus: the step [dr] is not negative, all samples lie in
    [[1e-10, r_max]], and so the Coulomb potential on it is finite and
    negative, between [-1e10] and [0]: no division by zero. *)
Theorem RadialSolver_grid_positive
    (l_value : Z) (r_max : R) (num_points : Z)
    (self : Schrodinger.RadialSolver) :
  Schrodinger.RadialSolver_init l_value r_max num_points = Ok self ->
  (1e-10 < r_max)%R ->
  (0 <= Schrodinger.dr self)%R /\
  Forall (fun x => 1e-10 <= x <= r_max)%R (Schrodinger.r self) /\
  Forall (fun v => - 1e10 <= v < 0)%R (Schrodinger.coulomb_potential self).
Proof.
  intros Hinit Hr.
  destruct (Z_le_dec num_points 1) as [Hshort | Hlong].
  { destruct (RadialSolver_init_short l_value r_max num_points Hshort) as [e He].
    rewrite He in Hinit. discriminate Hinit. }
  rewrite RadialSolver_init_valid in Hinit by lia.
  injection Hinit as <-. cbn [Schrodinger.dr Schrodinger.r].
  assert (2 <= IZR num_points)%R as Hnum by (apply IZR_le; lia).
  set (step := ((r_max - 1e-10) / (IZR num_points - 1))%R).
  assert (0 < step)%R as Hstep by (apply Rdiv_lt_0_compat; lra).
  assert (forall x,
            In x (map (fun i => (1e-10 + INR i * step)%R)
                      (seq 0 (Z.to_nat num_points))) ->
            (1e-10 <= x <= r_max)%R) as Hbounds.
  { intros x Hx. apply in_map_iff in Hx. destruct Hx as [i [<- Hi]].
    apply in_seq in Hi.
    pose proof (pos_INR i) as Hi0.
    assert (INR i <= IZR num_points - 1)%R as Hi1.
    { rewrite (IZR_to_nat num_points) by lia.
      replace (INR (Z.to_nat num_points) - 1)%R
        with (INR (Z.to_nat num_points - 1))
        by (rewrite minus_INR by lia; reflexivity).
      apply le_INR. lia. }
    assert (r_max = 1e-10 + (IZR num_points - 1) * step)%R as Hmax
      by (unfold step; field; lra).
    clearbody step. split; [nra |]. rewrite Hmax. nra. }
  split; [cbn [INR]; lra |]. split.
  - apply Forall_forall. exact Hbounds.
  - unfold Schrodinger.coulomb_potential. cbn [Schrodinger.r].
    apply Forall_forall. intros v Hv. apply in_map_iff in Hv.
    destruct Hv as [x [<- Hx]]. apply Hbounds in Hx.
    assert (0 < x)%R as Hpos by lra.
    assert (/ x <= / 1e-10)%R as Hinv by (apply Rinv_le_contravar; lra).
    assert (0 < / x)%R as Hinvpos by (apply Rinv_0_lt_compat; exact Hpos).
    replace (/ 1e-10)%R with 1e10%R in Hinv by lra.
    unfold Rdiv. lra.
Qed.

Lemma RadialSolver_grid_positive_witness :
  Forall (fun v => - 1e10 <= v < 0)%R
    (Schrodinger.coulomb_potential
       {| Schrodinger.l := 0;
          Schrodinger.r_max := 1;
          Schrodinger.r :=
            map (fun i => (1e-10 + INR i * ((1 - 1e-10) / (IZR 2 - 1)))%R)
                (seq 0 (Z.to_nat 2));
          Schrodinger.dr :=
            (1e-10 + INR 1 * ((1 - 1e-10) / (IZR 2 - 1))
             - (1e-10 + INR 0 * ((1 - 1e-10) / (IZR 2 - 1))))%R |}).
Proof.
  pose proof (RadialSolver_grid_positive 0 1 2 _
                (RadialSolver_init_valid 0 1 2 ltac:(lia)) ltac:(lra))
    as [_ [_ Hc]].
  exact Hc.
Defined.

Lemma map_combine_map_left {A B C : Type}
    (g : B * A -> C) (f : A -> B) (xs : list A) :
  map g (combine (map f xs) xs) = map (fun x => g (f x, x)) xs.
Proof.
  induction xs as [| x xs IH]; [reflexivity |].
  cbn [map combine]. rewrite IH. reflexivity.
Qed.

(** [effective_potential] sample by sample: [-1/r + l (l+1) / (2 r^2)]. *)
Lemma effective_potential_samples (self : Schrodinger.RadialSolver) :
  Schrodinger.effective_potential self
  = map (fun x =>
           (- 1.0 / x
            + IZR (Schrodinger.l self * (Schrodinger.l self + 1)) / (2 * x ^ 2))%R)
        (Schrodinger.r self).
Proof.
  unfold Schrodinger.effective_potential, Schrodinger.coulomb_potential.
  rewrite map_combine_map_left. reflexivity.
Qed.

Lemma nth_map_default {A B : Type} (f : A -> B) (xs : list A) (i : nat)
    (dA : A) (dB : B) :
  (i < List.length xs)%nat -> nth i (map f xs) dB = f (nth i xs dA).
Proof.
  intros H.
  rewrite (nth_indep _ dB (f dA)) by (rewrite length_map; exact H).
  apply map_nth.
Qed.

(** The centrifugal term only ever raises the potential.  On a grid whose
    samples are at or above [1e-10], as every grid that [RadialSolver_init]
    builds with [r_max > 1e-10] is, and for every integer [l], the effective
    potential is at least the Coulomb potential at every sample; the two are
    the same list when [l = 0]. *)
Theorem effective_potential_barrier (self : Schrodinger.RadialSolver) :
  Forall (fun x => 1e-10 <= x)%R (Schrodinger.r self) ->
  List.length (Schrodinger.effective_potential self)
  = List.length (Schrodinger.r self) /\
  (forall i, (i < List.length (Schrodinger.r self))%nat ->
     (nth i (Schrodinger.coulomb_potential self) 0
      <= nth i (Schrodinger.effective_potential self) 0)%R) /\
  (Schrodinger.l self = 0 ->
   Schrodinger.effective_potential self = Schrodinger.coulomb_potential self).
Proof.
  intros Hgrid.
  rewrite effective_potential_samples. unfold Schrodinger.coulomb_potential.
  split; [apply length_map |]. split.
  - intros i Hi.
    rewrite !(nth_map_default _ _ _ 0%R) by exact Hi.
    assert (1e-10 <= nth i (Schrodinger.r self) 0)%R as Hx.
    { rewrite Forall_forall in Hgrid. apply Hgrid, nth_In, Hi. }
    set (x := nth i (Schrodinger.r self) 0%R) in *.
    assert (0 <= IZR (Schrodinger.l self * (Schrodinger.l self + 1)))%R as Hl
      by (apply IZR_le; nia).
    assert (0 < 2 * x ^ 2)%R as Hx2 by nra.
    assert (0 <= IZR (Schrodinger.l self * (Schrodinger.l self + 1))
                 / (2 * x ^ 2))%R
      by (apply Rmult_le_pos; [exact Hl | apply Rlt_le, Rinv_0_lt_compat, Hx2]).
    lra.
  - intros ->. apply map_ext. intros x. cbn [Z.mul]. unfold Rdiv. lra.
Qed.

Lemma effective_potential_barrier_witness :
  Schrodinger.effective_potential
    {| Schrodinger.l := 0; Schrodinger.r_max := 1;
       Schrodinger.r := [1e-10; 1]%R; Schrodinger.dr := (1 - 1e-10)%R |}
  = Schrodinger.coulomb_potential
      {| Schrodinger.l := 0; Schrodinger.r_max := 1;
         Schrodinger.r := [1e-10; 1]%R; Schrodinger.dr := (1 - 1e-10)%R |}.
Proof.
  apply (proj2 (proj2 (effective_potential_barrier
    {| Schrodinger.l := 0; Schrodinger.r_max := 1;
       Schrodinger.r := [1e-10; 1]%R; Schrodinger.dr := (1 - 1e-10)%R |}
    ltac:(repeat constructor; lra)))).
  reflexivity.
Defined.

(** ** The finite-difference matrix *)

Lemma np_diag_square (v : list R) (k : Z) :
  square (List.length v + Z.abs_nat k) (np_diag v k).
Proof.
  unfold square, np_diag. split.
  - rewrite length_map, length_seq. reflexivity.
  - intros i Hi. rewrite (nth_map_seq _ _ _ _ Hi), length_map, length_seq.
    reflexivity.
Qed.

Lemma entry_np_diag (v : list R) (k : Z) (i j : nat) :
  (i < List.length v + Z.abs_nat k)%nat ->
  (j < List.length v + Z.abs_nat k)%nat ->
  entry (np_diag v k) i j
  = if Z.of_nat j - Z.of_nat i =? k
    then nth (if 0 <=? k then i else j) v 0%R
    else 0%R.
Proof.
  intros Hi Hj. unfold entry, np_diag.
  rewrite (nth_map_seq _ _ _ _ Hi), (nth_map_seq _ _ _ _ Hj). reflexivity.
Qed.

Lemma nth_matrix_add (A B : list (list R)) (i : nat) :
  List.length A = List.length B ->
  nth i (matrix_add A B) []
  = map (fun ab => (fst ab + snd ab)%R) (combine (nth i A []) (nth i B [])).
Proof.
  intros H. unfold matrix_add.
  change (@nil R)
    with ((fun rows : list R * list R =>
             map (fun ab => (fst ab + snd ab)%R)
                 (combine (fst rows) (snd rows))) ([], [])) at 1.
  rewrite map_nth, combine_nth by exact H. reflexivity.
Qed.

Lemma matrix_add_square (N : nat) (A B : list (list R)) :
  square N A -> square N B -> square N (matrix_add A B).
Proof.
  intros [HA HrowA] [HB HrowB]. split.
  - unfold matrix_add. rewrite length_map, length_combine. lia.
  - intros i Hi. rewrite nth_matrix_add by lia.
    rewrite length_map, length_combine, HrowA, HrowB by exact Hi. lia.
Qed.

Lemma entry_matrix_add (N : nat) (A B : list (list R)) (i j : nat) :
  square N A -> square N B -> (i < N)%nat -> (j < N)%nat ->
  entry (matrix_add A B) i j = (entry A i j + entry B i j)%R.
Proof.
  intros [HA HrowA] [HB HrowB] Hi Hj. unfold entry.
  rewrite nth_matrix_add by lia.
  rewrite (nth_map_default _ _ _ (0%R, 0%R))
    by (rewrite length_combine, HrowA, HrowB by exact Hi; lia).
  rewrite combine_nth by (rewrite HrowA, HrowB by exact Hi; reflexivity).
  reflexivity.
Qed.

Lemma np_ones_valid (n : nat) :
  np_ones (Z.of_nat (S n) - 1) = Ok (repeat 1%R n).
Proof.
  unfold np_ones.
  destruct (Z.ltb_spec (Z.of_nat (S n) - 1) 0) as [C | _]; [lia |].
  do 2 f_equal. lia.
Qed.

Lemma nth_scaled_ones (c : R) (n i : nat) :
  (i < n)%nat ->
  nth i (map (fun one => (c * one)%R) (repeat 1%R n)) 0%R = (c * 1)%R.
Proof.
  intros H. rewrite (nth_map_default _ _ _ 1%R) by (rewrite repeat_length; exact H).
  rewrite nth_repeat. reflexivity.
Qed.

(** The matrix that [finite_difference_matrix] assembles on a grid of
    [N >= 1] samples, entry by entry. *)
Lemma finite_difference_matrix_entries (self : Schrodinger.RadialSolver) :
  (1 <= List.length (Schrodinger.r self))%nat ->
  exists H : list (list R),
    (forall E, Schrodinger.finite_difference_matrix self E = Ok H) /\
    square (List.length (Schrodinger.r self)) H /\
    forall i j,
      (i < List.length (Schrodinger.r self))%nat ->
      (j < List.length (Schrodinger.r self))%nat ->
      entry H i j
      = if (j =? i)%nat
        then (2.0 / Schrodinger.dr self ^ 2
              + nth i (Schrodinger.effective_potential self) 0)%R
        else if ((j =? S i) || (i =? S j))%nat
             then (- 1.0 / Schrodinger.dr self ^ 2)%R
             else 0%R.
Proof.
  intros HN. unfold Schrodinger.finite_difference_matrix.
  assert (List.length (Schrodinger.effective_potential self)
          = List.length (Schrodinger.r self)) as HV
    by (rewrite effective_potential_samples; apply length_map).
  destruct (List.length (Schrodinger.r self)) as [| n] eqn:EN; [lia |].
  rewrite np_ones_valid. cbn [bind].
  set (V := Schrodinger.effective_potential self) in *.
  set (off_diag := (- 1.0 / Schrodinger.dr self ^ 2)%R).
  set (diag := map (fun v => (2.0 / Schrodinger.dr self ^ 2 + v)%R) V).
  set (band := map (fun one => (off_diag * one)%R) (repeat 1%R n)).
  assert (List.length diag = S n) as Hdiag
    by (unfold diag; rewrite length_map; exact HV).
  assert (List.length band = n) as Hband
    by (unfold band; rewrite length_map, repeat_length; reflexivity).
  assert (square (S n) (np_diag diag 0)) as SD.
  { pose proof (np_diag_square diag 0) as S0. rewrite Hdiag in S0.
    replace (S n + Z.abs_nat 0)%nat with (S n) in S0 by lia. exact S0. }
  assert (square (S n) (np_diag band 1)) as SU.
  { pose proof (np_diag_square band 1) as S1. rewrite Hband in S1.
    replace (n + Z.abs_nat 1)%nat with (S n) in S1 by lia. exact S1. }
  assert (square (S n) (np_diag band (-1))) as SL.
  { pose proof (np_diag_square band (-1)) as S1. rewrite Hband in S1.
    replace (n + Z.abs_nat (-1))%nat with (S n) in S1 by lia. exact S1. }
  eexists. split; [intros E; reflexivity |]. split.
  - apply matrix_add_square; [apply matrix_add_square |]; assumption.
  - intros i j Hi Hj.
    rewrite (entry_matrix_add (S n)); try assumption;
      [| apply matrix_add_square; assumption].
    rewrite (entry_matrix_add (S n)) by assumption.
    rewrite !entry_np_diag by lia.
    change (0 <=? 0) with true. change (0 <=? 1) with true.
    change (0 <=? -1) with false. cbv iota.
    destruct (Nat.eqb_spec j i) as [-> | Hji].
    + destruct (Z.eqb_spec (Z.of_nat i - Z.of_nat i) 0) as [_ | C]; [| lia].
      destruct (Z.eqb_spec (Z.of_nat i - Z.of_nat i) 1) as [C | _]; [lia |].
      destruct (Z.eqb_spec (Z.of_nat i - Z.of_nat i) (-1)) as [C | _]; [lia |].
      unfold diag. rewrite (nth_map_default _ _ _ 0%R) by lia. lra.
    + destruct (Z.eqb_spec (Z.of_nat j - Z.of_nat i) 0) as [C | _]; [lia |].
      destruct (Nat.eqb_spec j (S i)) as [-> | Hup].
      * destruct (Z.eqb_spec (Z.of_nat (S i) - Z.of_nat i) 1) as [_ | C]; [| lia].
        destruct (Z.eqb_spec (Z.of_nat (S i) - Z.of_nat i) (-1)) as [C | _]; [lia |].
        unfold band. rewrite nth_scaled_ones by lia. cbn [orb]. lra.
      * destruct (Z.eqb_spec (Z.of_nat j - Z.of_nat i) 1) as [C | _]; [lia |].
        destruct (Nat.eqb_spec i (S j)) as [-> | Hdown].
        -- destruct (Z.eqb_spec (Z.of_nat j - Z.of_nat (S j)) (-1)) as [_ | C];
             [| lia].
           unfold band. rewrite nth_scaled_ones by lia. cbn [orb]. lra.
        -- destruct (Z.eqb_spec (Z.of_nat j - Z.of_nat i) (-1)) as [C | _]; [lia |].
           cbn [orb]. lra.
Qed.

(** [finite_difference_matrix] never reads its argument [E]; on an empty
    grid it raises [ValueError] (there is no [np.ones(-1)]); on [N >= 1]
    samples it returns a symmetric tridiagonal [N x N] matrix. *)
Theorem finite_difference_matrix_symmetric
    (self : Schrodinger.RadialSolver) (E : R) :
  (Schrodinger.r self = [] ->
   raises (Schrodinger.finite_difference_matrix self E) ValueError) /\
  (Schrodinger.r self <> [] ->
   exists H : list (list R),
     (forall E', Schrodinger.finite_difference_matrix self E' = Ok H) /\
     square (List.length (Schrodinger.r self)) H /\
     (forall i j,
        (i < List.length (Schrodinger.r self))%nat ->
        (j < List.length (Schrodinger.r self))%nat ->
        entry H i j = entry H j i /\
        ((S i < j)%nat \/ (S j < i)%nat -> entry H i j = 0%R))).
Proof.
  split.
  - intros Hr. unfold raises, Schrodinger.finite_difference_matrix.
    rewrite Hr. reflexivity.
  - intros Hr.
    assert (1 <= List.length (Schrodinger.r self))%nat as HN
      by (destruct (Schrodinger.r self); [contradiction | cbn; lia]).
    destruct (finite_difference_matrix_entries self HN) as [H [HE [Hsq Hent]]].
    exists H. split; [exact HE |]. split; [exact Hsq |].
    intros i j Hi Hj. rewrite (Hent i j Hi Hj), (Hent j i Hj Hi). split.
    + destruct (Nat.eqb_spec j i) as [-> | Hji].
      * rewrite Nat.eqb_refl. reflexivity.
      * destruct (Nat.eqb_spec i j) as [C | _]; [congruence |].
        rewrite orb_comm. reflexivity.
    + intros Hfar.
      destruct (Nat.eqb_spec j i) as [C | _]; [lia |].
      destruct (Nat.eqb_spec j (S i)) as [C | _]; [lia |].
      destruct (Nat.eqb_spec i (S j)) as [C | _]; [lia |].
      reflexivity.
Qed.

Lemma finite_difference_matrix_symmetric_witness :
  raises (Schrodinger.finite_difference_matrix
            {| Schrodinger.l := 0; Schrodinger.r_max := 1;
               Schrodinger.r := []; Schrodinger.dr := 1 |} 0)
    ValueError.
Proof.
  apply (proj1 (finite_difference_matrix_symmetric
    {| Schrodinger.l := 0; Schrodinger.r_max := 1;
       Schrodinger.r := []; Schrodinger.dr := 1 |} 0)).
  reflexivity.
Defined.

(** The entries of the finite-difference matrix: [2/dr^2 + V_eff(r_i)] on
    the diagonal, [-1/dr^2] next to it. *)
Theorem finite_difference_matrix_stencil
    (self : Schrodinger.RadialSolver) (E : R) :
  Schrodinger.r self <> [] ->
  exists H : list (list R),
    Schrodinger.finite_difference_matrix self E = Ok H /\
    (forall i, (i < List.length (Schrodinger.r self))%nat ->
       entry H i i
       = (2 / Schrodinger.dr self ^ 2
          + nth i (Schrodinger.effective_potential self) 0)%R) /\
    (forall i, (S i < List.length (Schrodinger.r self))%nat ->
       entry H i (S i) = (- (1 / Schrodinger.dr self ^ 2))%R /\
       entry H (S i) i = (- (1 / Schrodinger.dr self ^ 2))%R).
Proof.
  intros Hr.
  assert (1 <= List.length (Schrodinger.r self))%nat as HN
    by (destruct (Schrodinger.r self); [contradiction | cbn; lia]).
  destruct (finite_difference_matrix_entries self HN) as [H [HE [_ Hent]]].
  exists H. split; [apply HE |]. split.
  - intros i Hi. rewrite (Hent i i Hi Hi), Nat.eqb_refl.
    replace 2.0%R with 2%R by lra. reflexivity.
  - intros i Hi.
    rewrite (Hent i (S i)) by lia. rewrite (Hent (S i) i) by lia.
    destruct (Nat.eqb_spec (S i) i) as [C | _]; [lia |].
    destruct (Nat.eqb_spec i (S i)) as [C | _]; [lia |].
    rewrite !Nat.eqb_refl, orb_true_r. cbn [orb].
    unfold Rdiv. split; lra.
Qed.

Lemma finite_difference_matrix_stencil_witness :
  exists H : list (list R),
    Schrodinger.finite_difference_matrix
      {| Schrodinger.l := 0; Schrodinger.r_max := 1;
         Schrodinger.r := [1e-10; 1]%R; Schrodinger.dr := (1 - 1e-10)%R |} 0
    = Ok H.
Proof.
  destruct (finite_difference_matrix_stencil
    {| Schrodinger.l := 0; Schrodinger.r_max := 1;
       Schrodinger.r := [1e-10; 1]%R; Schrodinger.dr := (1 - 1e-10)%R |} 0
    ltac:(discriminate)) as [H [HE _]].
  exists H. exact HE.
Defined.

(** * Properties of examples/energy_levels.py *)

Lemma transition_energy_positive (n_upper n_lower : Z) :
  1 <= n_lower -> n_lower < n_upper ->
  (0 < - (1 / (2 * IZR n_upper ^ 2)) * 27.211
       - - (1 / (2 * IZR n_lower ^ 2)) * 27.211)%R /\
  (- (1 / (2 * IZR n_upper ^ 2)) * 27.211
   - - (1 / (2 * IZR n_lower ^ 2)) * 27.211
   < 27.211 / 2)%R.
Proof.
  intros Hl Hlu.
  pose proof (IZR_ge_1 n_lower Hl) as Ha.
  assert (IZR n_lower < IZR n_upper)%R as Hab by (apply IZR_lt; exact Hlu).
  assert (0 < 2 * IZR n_lower ^ 2)%R as Hpa by nra.
  assert (0 < 2 * IZR n_upper ^ 2)%R as Hpb by nra.
  assert (/ (2 * IZR n_upper ^ 2) < / (2 * IZR n_lower ^ 2))%R as Hinv
    by (apply Rinv_lt_contravar; nra).
  assert (/ (2 * IZR n_lower ^ 2) <= / 2)%R as Hhalf
    by (apply Rinv_le_contravar; nra).
  assert (0 < / (2 * IZR n_upper ^ 2))%R as Hposu
    by (apply Rinv_0_lt_compat; exact Hpb).
  unfold Rdiv. rewrite !Rmult_1_l. split; lra.
Qed.

(** [calculate_transition_energy] raises [ValueError] exactly when
    [n_upper <= n_lower] or [n_lower < 1], from its own guard or from
    [energy_eigenvalue]; it returns only on [1 <= n_lower < n_upper], and
    there it does return up to [n_upper = 2^20], where the two levels are
    different floats and the division by the transition energy cannot
    fail. *)
Theorem calculate_transition_energy_domain (n_upper n_lower : Z) :
  (raises (EnergyLevels.calculate_transition_energy n_upper n_lower) ValueError
     <-> n_upper <= n_lower \/ n_lower < 1) /\
  (returns (EnergyLevels.calculate_transition_energy n_upper n_lower)
     -> 1 <= n_lower < n_upper) /\
  (1 <= n_lower -> n_lower < n_upper -> n_upper <= 2 ^ 20 ->
   returns (EnergyLevels.calculate_transition_energy n_upper n_lower)).
Proof.
  unfold returns, raises, EnergyLevels.calculate_transition_energy.
  assert (forall c : result (R * R),
            c = Raise ValueError ->
            n_upper <= n_lower \/ n_lower < 1 ->
            (c = Raise ValueError <-> n_upper <= n_lower \/ n_lower < 1) /\
            ((exists a, c = Ok a) -> 1 <= n_lower < n_upper) /\
            (1 <= n_lower -> n_lower < n_upper -> n_upper <= 2 ^ 20 ->
             exists a, c = Ok a)) as Hraise.
  { intros c -> Hbad. split; [| split].
    - split; [intros _; exact Hbad | reflexivity].
    - intros [a Ha]. discriminate Ha.
    - lia. }
  destruct (Z.leb_spec n_upper n_lower) as [Hle | Hlt].
  { apply Hraise; [reflexivity | lia]. }
  destruct (Z_lt_dec n_upper 1) as [Hu | Hu].
  { rewrite (energy_eigenvalue_invalid n_upper) by lia.
    apply Hraise; [reflexivity | lia]. }
  rewrite (energy_eigenvalue_valid n_upper) by lia. cbn [bind].
  destruct (Z_lt_dec n_lower 1) as [Hl | Hl].
  { rewrite (energy_eigenvalue_invalid n_lower) by lia.
    apply Hraise; [reflexivity | lia]. }
  rewrite (energy_eigenvalue_valid n_lower) by lia. cbn [bind].
  destruct (transition_energy_positive n_upper n_lower ltac:(lia) ltac:(lia))
    as [Hpos _].
  destruct (Req_dec_T _ 0) as [C | _]; [lra |].
  split; [| split].
  - split; [discriminate | lia].
  - intros _. lia.
  - intros _ _ _. eexists. reflexivity.
Qed.

Lemma calculate_transition_energy_domain_witness :
  returns (EnergyLevels.calculate_transition_energy 3 2) /\
  raises (EnergyLevels.calculate_transition_energy 2 3) ValueError.
Proof.
  split.
  - apply (proj2 (proj2 (calculate_transition_energy_domain 3 2))); lia.
  - apply (proj1 (calculate_transition_energy_domain 2 3)). lia.
Defined.

(** On [1 <= n_lower < n_upper <= 2^20] the transition energy is the
    Rydberg formula [13.6055 (1/n_lower^2 - 1/n_upper^2)] eV: positive,
    below the ionisation energy [13.6055] eV, and the wavelength is the
    positive number with [E * wavelength = 1240]. *)
Theorem calculate_transition_energy_rydberg (n_upper n_lower : Z) :
  1 <= n_lower -> n_lower < n_upper -> n_upper <= 2 ^ 20 ->
  exists E_trans wavelength : R,
    EnergyLevels.calculate_transition_energy n_upper n_lower
    = Ok (E_trans, wavelength) /\
    (E_trans = 27.211 / 2 * (1 / IZR n_lower ^ 2 - 1 / IZR n_upper ^ 2))%R /\
    (0 < E_trans < 27.211 / 2)%R /\
    (0 < wavelength)%R /\
    (E_trans * wavelength = 1240)%R.
Proof.
  intros Hl Hlu _. unfold EnergyLevels.calculate_transition_energy.
  destruct (Z.leb_spec n_upper n_lower) as [C | _]; [lia |].
  rewrite (energy_eigenvalue_valid n_upper) by lia. cbn [bind].
  rewrite (energy_eigenvalue_valid n_lower) by lia. cbn [bind].
  destruct (transition_energy_positive n_upper n_lower Hl Hlu) as [Hpos Hlim].
  destruct (Req_dec_T _ 0) as [C | Hne]; [lra |].
  do 2 eexists. split; [reflexivity |].
  pose proof (IZR_ge_1 n_lower Hl) as Ha.
  assert (IZR n_lower < IZR n_upper)%R as Hab by (apply IZR_lt; exact Hlu).
  repeat split.
  - field. split; lra.
  - exact Hpos.
  - exact Hlim.
  - apply Rdiv_lt_0_compat; [lra | exact Hpos].
  - match type of Hne with
    | (?e <> _)%R => generalize dependent e
    end.
    intros E_trans _ _ Hne. field. exact Hne.
Qed.

Lemma calculate_transition_energy_rydberg_witness :
  exists E_trans wavelength : R,
    EnergyLevels.calculate_transition_energy 3 2 = Ok (E_trans, wavelength) /\
    (E_trans = 27.211 / 2 * (1 / IZR 2 ^ 2 - 1 / IZR 3 ^ 2))%R /\
    (0 < E_trans < 27.211 / 2)%R /\
    (0 < wavelength)%R /\
    (E_trans * wavelength = 1240)%R.
Proof. apply (calculate_transition_energy_rydberg 3 2); lia. Defined.

Lemma int64_small (z : Z) :
  - 2 ^ 63 <= z < 2 ^ 63 -> EnergyLevels.int64 z = z.
Proof.
  intros H. unfold EnergyLevels.int64.
  rewrite Z.mod_small by lia. lia.
Qed.

(** Below [2^31] the [int64] arithmetic of [2 * n**2] does not wrap. *)
Lemma energy_eigenvalue_int64_small (n : Z) :
  1 <= n -> n < 2 ^ 31 ->
  EnergyLevels.energy_eigenvalue_int64 n = Ok (- (1 / (2 * IZR n ^ 2)))%R.
Proof.
  intros Hn Hbound. unfold EnergyLevels.energy_eigenvalue_int64.
  destruct (Z.ltb_spec n 1) as [C | _]; [lia |].
  assert (n ^ 2 < 2 ^ 62) by nia.
  rewrite (int64_small (n ^ 2)) by nia.
  rewrite int64_small by nia.
  f_equal. rewrite mult_IZR. change 2 with (Z.of_nat 2) at 2.
  rewrite <- pow_IZR. unfold Rdiv. lra.
Qed.

Lemma comprehension_map {A B : Type} (f : A -> result B) (g : A -> B)
    (xs : list A) :
  (forall x, In x xs -> f x = Ok (g x)) ->
  EnergyLevels.comprehension f xs = Ok (map g xs).
Proof.
  induction xs as [| x xs IH]; intros H; [reflexivity |].
  cbn [EnergyLevels.comprehension map].
  rewrite (H x (or_introl eq_refl)). cbn [bind].
  rewrite IH by (intros y Hy; apply H; right; exact Hy).
  reflexivity.
Qed.

(** [calculate_energy_levels(n_max)] never raises below [n_max = 2^31]: it
    returns the levels [1 .. n_max] (none for [n_max <= 0]) and, for level
    [k], the energy [27.211 * (-1/(2 k^2))] eV. *)
Theorem calculate_energy_levels_table (n_max : Z) :
  n_max < 2 ^ 31 ->
  exists (n_values : list Z) (energies_ev : list R),
    EnergyLevels.calculate_energy_levels n_max = Ok (n_values, energies_ev) /\
    List.length n_values = Z.to_nat n_max /\
    List.length energies_ev = Z.to_nat n_max /\
    forall k, 1 <= k <= n_max ->
      nth (Z.to_nat (k - 1)) n_values 0 = k /\
      nth (Z.to_nat (k - 1)) energies_ev 0%R
      = (- (1 / (2 * IZR k ^ 2)) * 27.211)%R.
Proof.
  intros Hbound. unfold EnergyLevels.calculate_energy_levels.
  replace (n_max + 1 - 1) with n_max by lia.
  assert (forall i, (i < Z.to_nat n_max)%nat ->
            nth i (EnergyLevels.arange 1 (n_max + 1)) 0 = 1 + Z.of_nat i) as Hn.
  { intros i Hi. unfold EnergyLevels.arange.
    replace (n_max + 1 - 1) with n_max by lia.
    rewrite nth_map_seq by exact Hi. reflexivity. }
  assert (List.length (EnergyLevels.arange 1 (n_max + 1)) = Z.to_nat n_max)
    as Hlen.
  { unfold EnergyLevels.arange. rewrite length_map, length_seq. f_equal. lia. }
  rewrite (comprehension_map _ (fun n => (- (1 / (2 * IZR n ^ 2)))%R)).
  - cbn [bind]. do 2 eexists. split; [reflexivity |].
    split; [exact Hlen |]. split; [rewrite !length_map; exact Hlen |].
    intros k Hk. split.
    + rewrite Hn by lia. lia.
    + rewrite map_map.
      rewrite (nth_map_default _ _ _ 0) by (rewrite Hlen; lia).
      rewrite Hn by lia.
      replace (1 + Z.of_nat (Z.to_nat (k - 1))) with k by lia. reflexivity.
  - intros n Hin. unfold EnergyLevels.arange in Hin.
    apply in_map_iff in Hin. destruct Hin as [i [<- Hi]].
    apply in_seq in Hi. apply energy_eigenvalue_int64_small; lia.
Qed.

Lemma calculate_energy_levels_table_witness :
  exists (n_values : list Z) (energies_ev : list R),
    EnergyLevels.calculate_energy_levels 5 = Ok (n_values, energies_ev) /\
    List.length n_values = Z.to_nat 5 /\
    List.length energies_ev = Z.to_nat 5 /\
    forall k, 1 <= k <= 5 ->
      nth (Z.to_nat (k - 1)) n_values 0 = k /\
      nth (Z.to_nat (k - 1)) energies_ev 0%R
      = (- (1 / (2 * IZR k ^ 2)) * 27.211)%R.
Proof. apply (calculate_energy_levels_table 5). lia. Defined.
